(** * Resilience layer of ur-agent-frontend: a shallow embedding

    This development models, from the TypeScript sources, the pieces of the
    resilience layer whose behaviour the specification talks about:
    - [GracefulDegradationService] (src/server/services/graceful-degradation.ts),
    - [withRetry] (src/server/utils/retry.ts) and the error classes it tags,
    - [WebSocketService] (src/client/services/websocket-service.ts), whose
      asynchronous callbacks are modelled as an event-driven step function. *)

From stdpp Require Import base strings gmap list.
From Stdlib Require Import String Lia.

Local Open Scope string_scope.

(* ===================================================================== *)
(** ** Graceful degradation *)

Module Degradation.

(** [DegradationLevel.level] *)
Inductive LevelName := Lfull | Llimited | Loffline.

(** What [fallbackActions[action]] can yield: one of the closures the
    object literals store, each calling a private helper of the service, or
    a member of [Object.prototype] that the lookup falls through to. *)
Inductive Fallback :=
  | QueueMessageForLater   (* () => this.queueMessageForLater({}) *)
  | GetCachedMessages      (* () => this.getCachedMessages('') *)
  | ShowOfflineMessage     (* () => this.showOfflineMessage() *)
  | Inherited (member : string).  (* Object.prototype[member] *)

Record DegradationLevel := mkLevel {
  level : LevelName;
  description : string;
  features : list string;
  fallbackActions : list (string * Fallback)   (* object literal, in key order *)
}.

(** What one invocation of a registered [() => Promise<boolean>] does:
    resolve with a boolean, throw/reject, or never settle. *)
Inductive ProbeResult :=
  | Resolves (b : bool)
  | Rejects (message : string)
  | NeverSettles.

(** A probe, as the outcome of its [t]-th invocation. *)
Definition Probe := nat -> ProbeResult.

Record Service := mkService {
  currentLevel : DegradationLevel;
  healthChecks : list (string * Probe)   (* a JS Map: insertion order *)
}.

Definition full_level : DegradationLevel :=
  mkLevel Lfull "All services operational"
    ["websocket"; "ai-agent"; "session-storage"; "real-time"] [].

Definition limited_level : DegradationLevel :=
  mkLevel Llimited "Limited functionality - some services unavailable"
    ["session-storage"; "message-queue"]
    [("sendMessage", QueueMessageForLater); ("getMessages", GetCachedMessages)].

Definition offline_level : DegradationLevel :=
  mkLevel Loffline "System offline - maintenance mode"
    ["static-content"]
    [("sendMessage", ShowOfflineMessage); ("getMessages", ShowOfflineMessage)].

(** [constructor()] *)
Definition new_service : Service := mkService full_level [].

(** [Map.prototype.set]: an existing key keeps its position. *)
Fixpoint map_set {V} (k : string) (v : V) (m : list (string * V)) : list (string * V) :=
  match m with
  | [] => [(k, v)]
  | (k', v') :: rest =>
      if String.eqb k k' then (k, v) :: rest else (k', v') :: map_set k v rest
  end.

(** The properties every object literal inherits from [Object.prototype]. *)
Definition object_prototype_keys : list string :=
  ["constructor"; "__defineGetter__"; "__defineSetter__"; "hasOwnProperty";
   "__lookupGetter__"; "__lookupSetter__"; "isPrototypeOf";
   "propertyIsEnumerable"; "toString"; "valueOf"; "__proto__"; "toLocaleString"].

(** [results[name] = b] on the object literal [results]: an own property,
    except for ["__proto__"], whose inherited setter ignores a boolean. *)
Definition record_result (name : string) (b : bool) (results : gmap string bool) : gmap string bool :=
  if String.eqb name "__proto__" then results else <[name := b]> results.

(** [registerHealthCheck(name, check)] *)
Definition registerHealthCheck (s : Service) (name : string) (check : Probe) : Service :=
  mkService (currentLevel s) (map_set name check (healthChecks s)).

(** The [for ... of] loop of [checkAllServices]: each probe is awaited in
    turn; a throw is caught and recorded as [false]; a probe that never
    settles leaves the loop suspended forever ([None]). *)
Fixpoint check_loop (checks : list (string * Probe)) (t : nat)
    (results : gmap string bool) : option (gmap string bool) :=
  match checks with
  | [] => Some results
  | (name, check) :: rest =>
      match check t with
      | Resolves b => check_loop rest t (record_result name b results)
      | Rejects _ => check_loop rest t (record_result name false results)
      | NeverSettles => None
      end
  end.

(** [checkAllServices()], at its [t]-th run *)
Definition checkAllServices (s : Service) (t : nat) : option (gmap string bool) :=
  check_loop (healthChecks s) t ∅.

(** JS truthiness of [healthStatus.name] on a [Record<string, boolean>]:
    a missing key reads as [undefined]. *)
Definition truthy (hs : gmap string bool) (name : string) : bool :=
  match hs !! name with Some true => true | _ => false end.

(** The decision table of [assessSystemHealth]. *)
Definition decide_level (hs : gmap string bool) : DegradationLevel :=
  if truthy hs "redis" && truthy hs "websocket" && truthy hs "aiAgent" then full_level
  else if truthy hs "redis" && (truthy hs "websocket" || truthy hs "aiAgent") then limited_level
  else offline_level.

(** [assessSystemHealth()]: [None] when the awaited [checkAllServices]
    never completes. *)
Definition assessSystemHealth (s : Service) (t : nat) : option (Service * DegradationLevel) :=
  match checkAllServices s t with
  | None => None
  | Some hs =>
      let lvl := decide_level hs in
      Some (mkService lvl (healthChecks s), lvl)
  end.

Definition getCurrentLevel (s : Service) : DegradationLevel := currentLevel s.

(** [features.includes(feature)] *)
Definition canUseFeature (s : Service) (feature : string) : bool :=
  existsb (String.eqb feature) (features (currentLevel s)).

Fixpoint assoc_lookup {V} (k : string) (m : list (string * V)) : option V :=
  match m with
  | [] => None
  | (k', v) :: rest => if String.eqb k k' then Some v else assoc_lookup k rest
  end.

(** [getFallbackAction(action)]: [fallbackActions[action]], an own
    property of the level's object literal, or else a member of
    [Object.prototype]; [undefined] otherwise. *)
Definition getFallbackAction (s : Service) (action : string) : option Fallback :=
  match assoc_lookup action (fallbackActions (currentLevel s)) with
  | Some f => Some f
  | None =>
      if existsb (String.eqb action) object_prototype_keys
      then Some (Inherited action) else None
  end.

(** The value a settled probe contributes to the health map. *)
Definition settled_value (r : ProbeResult) : bool :=
  match r with Resolves b => b | _ => false end.

(** A service whose three probes all resolve [true]. *)
Definition all_healthy : Service :=
  registerHealthCheck
    (registerHealthCheck
       (registerHealthCheck new_service "redis" (fun _ => Resolves true))
       "websocket" (fun _ => Resolves true))
    "aiAgent" (fun _ => Resolves true).

(** A service whose [redis] probe resolves [true] and whose [websocket]
    probe throws. *)
Definition one_probe_throws : Service :=
  registerHealthCheck
    (registerHealthCheck new_service "redis" (fun _ => Resolves true))
    "websocket" (fun _ => Rejects "fetch failed").

End Degradation.

(* ===================================================================== *)
(** ** Errors (src/server/types/errors.ts) and [withRetry] *)

Module Retry.

(** The class an error value is an instance of, as far as [instanceof]
    in [withRetry] can tell. *)
Inductive ErrKind :=
  | KRetryable       (* instanceof RetryableError *)
  | KNonRetryable    (* instanceof NonRetryableError *)
  | KOther.          (* any other Error, including other ChatServiceErrors *)

Record Error := mkError {
  kind : ErrKind;
  name : string;
  message : string;
  code : string;
  statusCode : nat
}.

(** [new RetryableError(lastError.message, 'RETRYABLE_ERROR', 500)] *)
Definition newRetryableError (msg : string) : Error :=
  mkError KRetryable "RetryableError" msg "RETRYABLE_ERROR" 500.

(** [new NonRetryableError(lastError.message, 'NON_RETRYABLE_ERROR', 400)] *)
Definition newNonRetryableError (msg : string) : Error :=
  mkError KNonRetryable "NonRetryableError" msg "NON_RETRYABLE_ERROR" 400.

(** [RetryConfig] (src/server/config/retry.ts). [maxAttempts] is a whole
    number; the delay fields only feed [setTimeout] and the logger, and
    [onFailedAttempt] is a notification hook, so neither changes the
    result or the number of calls. *)
Record RetryConfig := mkConfig {
  maxAttempts : nat;
  baseDelay : nat;
  maxDelay : nat;
  jitter : bool;
  retryCondition : Error -> bool
}.

(** What the [n]-th call of the wrapped [fn(...args)] does. *)
Inductive Outcome (R : Type) := Ok (r : R) | Err (e : Error).
Arguments Ok {R} r.
Arguments Err {R} e.

(** What the wrapped function does: return, or throw a value
    ([None] is [undefined], from [throw lastError!] before any attempt). *)
Inductive RetryResult (R : Type) := Returned (r : R) | Thrown (e : option Error).
Arguments Returned {R} r.
Arguments Thrown {R} e.

Section WithRetry.
Context {R : Type}.
Variable fn : nat -> Outcome R.
Variable config : RetryConfig.

(** The error thrown from the [if (attempt === config.maxAttempts ||
    !config.retryCondition(lastError))] branch. *)
Definition terminal_error (lastError : Error) : Error :=
  match kind lastError with
  | KRetryable | KNonRetryable => lastError
  | KOther =>
      if retryCondition config lastError
      then newRetryableError (message lastError)
      else newNonRetryableError (message lastError)
  end.

(** The [for] loop, from [attempt] on, with [fuel] iterations left;
    returns the result and the number of calls of [fn]. *)
Fixpoint retry_loop (fuel attempt : nat) (lastError : option Error)
    : RetryResult R * nat :=
  match fuel with
  | 0 => (Thrown lastError, 0)
  | S fuel' =>
      match fn attempt with
      | Ok r => (Returned r, 1)
      | Err e =>
          if Nat.eqb attempt (maxAttempts config) || negb (retryCondition config e)
          then (Thrown (Some (terminal_error e)), 1)
          else let '(res, calls) := retry_loop fuel' (S attempt) (Some e) in
               (res, S calls)
      end
  end.

(** [withRetry(fn, config)(...args)]: [attempt] runs from 1 to
    [config.maxAttempts]. *)
Definition withRetry : RetryResult R * nat :=
  retry_loop (maxAttempts config) 1 None.
End WithRetry.

(** [str.includes(sub)] *)
Definition includes (str sub : string) : bool :=
  match String.index 0 sub str with Some _ => true | None => false end.

(** [retryConfigs.api] of src/server/config/retry.ts (src/unnamed/part_012). *)
Definition api_config : RetryConfig :=
  mkConfig 3 500 5000 true
    (fun e => includes (message e) "ECONNRESET" || includes (message e) "ETIMEDOUT"
              || includes (message e) "ENOTFOUND").

Definition plain_error (msg : string) : Error := mkError KOther "Error" msg "" 0.

(** Fails twice with ECONNRESET, then returns 42. *)
Definition flaky_op (i : nat) : Outcome nat :=
  if Nat.leb i 2 then Err (plain_error "ECONNRESET") else Ok 42.

End Retry.

(* ===================================================================== *)
(** ** The real-time transport: [WebSocketService]

    Every callback the service hands to the runtime (the socket's
    [onopen]/[onerror]/[onclose] handlers, [setTimeout]/[setInterval]
    callbacks, and the sleep inside [withExponentialBackoff] of
    src/client/utils/retry.ts) is a state transformer; [step] is the event
    loop delivering one of them, with a millisecond clock so that timers fire
    in due order. An ['error'] listener is assumed to be registered (as the
    server plugin does), so [emit('error', ...)] does not throw. Message
    receipt, [lastActivity], [generateId] and the URL/token string are not
    modelled: no property below depends on them. *)

Module WebSocket.

(** [WebSocketConnection.status] *)
Inductive Status := Connecting | Connected | Disconnected | Reconnecting | ErrorSt.

Definition is_connected (s : Status) : bool :=
  match s with Connected => true | _ => false end.

Record Connection := mkConn {
  sessionId : string;
  userId : string;
  status : Status;
  retryCount : nat
}.

Definition with_status (st : Status) (c : Connection) : Connection :=
  mkConn (sessionId c) (userId c) st (retryCount c).

Definition with_retryCount (n : nat) (c : Connection) : Connection :=
  mkConn (sessionId c) (userId c) (status c) n.

(** The fields of [WebSocketConfig] that the service reads. *)
Record WebSocketConfig := mkWsConfig {
  reconnectAttempts : nat;
  reconnectDelay : nat;
  heartbeatInterval : nat
}.

(** [retryConfigs.websocket] of src/client/utils/retry.ts, used by
    [connect]: 3 attempts, [min(1000 * 2^(attempt-1), 10000)] ms apart. *)
Definition backoff_maxAttempts : nat := 3.
Definition backoff_delay (attempt : nat) : nat :=
  Nat.min (1000 * 2 ^ (attempt - 1)) 10000.

(** The callbacks that can be pending in the runtime's timer list. *)
Inductive TimerCb :=
  | ReconnectCb                                 (* handleReconnection *)
  | HeartbeatCb                                 (* startHeartbeat *)
  | BackoffCb (sid uid : string) (attempt : nat). (* withRetry's sleep *)

Record Timer := mkTimer {
  t_id : nat;
  t_cb : TimerCb;
  t_due : nat;
  t_period : option nat   (* [Some p] for setInterval *)
}.

(** The browser-side life of a socket object. *)
Inductive Phase := PConnecting | POpen | PFailed | PClosing.

(** A socket created by [establishConnection], with the [attempt] of the
    retry loop whose promise its [onopen]/[onerror] settle. *)
Record Socket := mkSocket {
  sock_id : nat;
  sock_sid : string;
  sock_uid : string;
  sock_attempt : nat;
  sock_settled : bool;
  sock_phase : Phase
}.

(** Events passed to [this.emit]. *)
Inductive Emitted := EmConnected | EmError | EmDisconnected | EmMaxRetriesReached.

(** Frames passed to [ws.send]. *)
Inductive Frame := QueryFrame (content : string) | PingFrame.

Record State := mkState {
  now : nat;
  ws : option nat;                  (* this.ws *)
  connection : option Connection;   (* this.connection *)
  reconnectTimer : option nat;      (* this.reconnectTimer *)
  heartbeatTimer : option nat;      (* this.heartbeatTimer *)
  timers : list Timer;              (* scheduled and not cleared or fired *)
  sockets : list Socket;            (* created and not yet closed *)
  next_id : nat;                    (* fresh handles *)
  emitted : list Emitted;           (* in order *)
  sent : list (nat * Frame)         (* (socket, frame), in order *)
}.

Definition init : State := mkState 0 None None None None [] [] 0 [] [].

(** Field updates. *)
Definition set_now n s := mkState n (ws s) (connection s) (reconnectTimer s) (heartbeatTimer s) (timers s) (sockets s) (next_id s) (emitted s) (sent s).
Definition set_ws w s := mkState (now s) w (connection s) (reconnectTimer s) (heartbeatTimer s) (timers s) (sockets s) (next_id s) (emitted s) (sent s).
Definition set_connection c s := mkState (now s) (ws s) c (reconnectTimer s) (heartbeatTimer s) (timers s) (sockets s) (next_id s) (emitted s) (sent s).
Definition set_reconnectTimer r s := mkState (now s) (ws s) (connection s) r (heartbeatTimer s) (timers s) (sockets s) (next_id s) (emitted s) (sent s).
Definition set_heartbeatTimer h s := mkState (now s) (ws s) (connection s) (reconnectTimer s) h (timers s) (sockets s) (next_id s) (emitted s) (sent s).
Definition set_timers ts s := mkState (now s) (ws s) (connection s) (reconnectTimer s) (heartbeatTimer s) ts (sockets s) (next_id s) (emitted s) (sent s).
Definition set_sockets ks s := mkState (now s) (ws s) (connection s) (reconnectTimer s) (heartbeatTimer s) (timers s) ks (next_id s) (emitted s) (sent s).
Definition set_next_id n s := mkState (now s) (ws s) (connection s) (reconnectTimer s) (heartbeatTimer s) (timers s) (sockets s) n (emitted s) (sent s).
Definition emit e s := mkState (now s) (ws s) (connection s) (reconnectTimer s) (heartbeatTimer s) (timers s) (sockets s) (next_id s) (emitted s ++ [e]) (sent s).
Definition send_frame f s := mkState (now s) (ws s) (connection s) (reconnectTimer s) (heartbeatTimer s) (timers s) (sockets s) (next_id s) (emitted s) (sent s ++ [f]).

Definition fresh (s : State) : nat * State := (next_id s, set_next_id (S (next_id s)) s).

(** [this.connection!.field = ...]; [connection] is never [null] once
    a first [establishConnection] has run. *)
Definition update_conn (f : Connection -> Connection) (s : State) : State :=
  match connection s with
  | Some c => set_connection (Some (f c)) s
  | None => s
  end.

(** [setTimeout(cb, delay)] / [setInterval(cb, period)] *)
Definition setTimeout (cb : TimerCb) (delay : nat) (s : State) : nat * State :=
  let '(id, s1) := fresh s in
  (id, set_timers (timers s1 ++ [mkTimer id cb (now s1 + delay) None]) s1).

Definition setInterval (cb : TimerCb) (period : nat) (s : State) : nat * State :=
  let '(id, s1) := fresh s in
  (id, set_timers (timers s1 ++ [mkTimer id cb (now s1 + period) (Some period)]) s1).

(** [clearTimeout(id)] / [clearInterval(id)] *)
Definition clearTimer (id : nat) (s : State) : State :=
  set_timers (List.filter (fun t => negb (Nat.eqb (t_id t) id)) (timers s)) s.

Definition pending (id : nat) (s : State) : bool :=
  existsb (fun t => Nat.eqb (t_id t) id) (timers s).

Fixpoint find_socket (id : nat) (ks : list Socket) : option Socket :=
  match ks with
  | [] => None
  | k :: rest => if Nat.eqb (sock_id k) id then Some k else find_socket id rest
  end.

Definition update_socket (id : nat) (f : Socket -> Socket) (s : State) : State :=
  set_sockets (map (fun k => if Nat.eqb (sock_id k) id then f k else k) (sockets s)) s.

Definition with_phase (p : Phase) (k : Socket) : Socket :=
  mkSocket (sock_id k) (sock_sid k) (sock_uid k) (sock_attempt k) (sock_settled k) p.

Definition settled (k : Socket) : Socket :=
  mkSocket (sock_id k) (sock_sid k) (sock_uid k) (sock_attempt k) true (sock_phase k).

Definition remove_socket (id : nat) (s : State) : State :=
  set_sockets (List.filter (fun k => negb (Nat.eqb (sock_id k) id)) (sockets s)) s.

(** The error classes of src/client/types/errors.ts (src/unnamed/part_016),
    which the service imports: subclasses of [Error] that set [name] and
    [message] and nothing else. *)
Record ClientError := mkClientError {
  ce_name : string;
  ce_message : string
}.

(** [new WebSocketNotConnectedError()] *)
Definition webSocketNotConnectedError : ClientError :=
  mkClientError "WebSocketNotConnectedError" "WebSocket is not connected".

(** [ws.send(data)] on the browser socket [w]: [None] when it throws (an
    [InvalidStateError]: the socket is still CONNECTING). An open socket
    transmits the frame; a closing or closed one discards it, as does one
    whose close event has already been delivered. *)
Definition ws_send (w : nat) (f : Frame) (s : State) : option State :=
  match find_socket w (sockets s) with
  | Some k =>
      match sock_phase k with
      | PConnecting => None
      | POpen => Some (send_frame (w, f) s)
      | PFailed | PClosing => Some s
      end
  | None => Some s
  end.

Section Service.
Variable config : WebSocketConfig.

(** [establishConnection(sessionId, userId)], as attempt [attempt] of the
    retry loop of [connect]: a new [connection] object with
    [retryCount: 0], a new socket, handlers attached to it. *)
Definition establishConnection (sid uid : string) (attempt : nat) (s : State) : State :=
  let s1 := set_connection (Some (mkConn sid uid Connecting 0)) s in
  let '(w, s2) := fresh s1 in
  set_ws (Some w) (set_sockets (sockets s2 ++ [mkSocket w sid uid attempt false PConnecting]) s2).

(** [connect(sessionId, userId)]: the first attempt runs at once. *)
Definition connect (sid uid : string) (s : State) : State :=
  establishConnection sid uid 1 s.

(** [startHeartbeat()]: the previous handle, if any, is overwritten. *)
Definition startHeartbeat (s : State) : State :=
  let '(h, s1) := setInterval HeartbeatCb (heartbeatInterval config) s in
  set_heartbeatTimer (Some h) s1.

(** [stopHeartbeat()] *)
Definition stopHeartbeat (s : State) : State :=
  match heartbeatTimer s with
  | Some h => set_heartbeatTimer None (clearTimer h s)
  | None => s
  end.

(** [handleReconnection()] *)
Definition handleReconnection (s : State) : State :=
  match connection s with
  | None => emit EmMaxRetriesReached s
  | Some c =>
      if Nat.leb (reconnectAttempts config) (retryCount c) then emit EmMaxRetriesReached s
      else
        let c' := with_retryCount (S (retryCount c)) (with_status Reconnecting c) in
        let s1 := set_connection (Some c') s in
        let '(r, s2) := setTimeout ReconnectCb (reconnectDelay config * retryCount c') s1 in
        set_reconnectTimer (Some r) s2
  end.

(** [ws.onopen] of socket [k] (set in [establishConnection]). *)
Definition onopen (k : Socket) (s : State) : State :=
  let s1 := update_socket (sock_id k) (with_phase POpen) s in
  let s2 := update_conn (fun c => with_retryCount 0 (with_status Connected c)) s1 in
  let s3 := startHeartbeat s2 in
  let s4 := emit EmConnected s3 in
  update_socket (sock_id k) settled s4.   (* resolve() *)

(** [ws.onerror] of socket [k]: the handler set in [establishConnection]
    replaces the one of [setupEventHandlers]. Its [reject] reaches the
    retry loop of [connect], which sleeps and calls [establishConnection]
    again unless this was attempt 3. *)
Definition onerror (k : Socket) (s : State) : State :=
  let s1 := update_socket (sock_id k) (with_phase PFailed) s in
  let s2 := update_conn (with_status ErrorSt) s1 in
  let s3 := emit EmError s2 in
  if sock_settled k then s3
  else
    let s4 := update_socket (sock_id k) settled s3 in
    if Nat.eqb (sock_attempt k) backoff_maxAttempts then s4
    else snd (setTimeout (BackoffCb (sock_sid k) (sock_uid k) (S (sock_attempt k)))
                         (backoff_delay (sock_attempt k)) s4).

(** [ws.onclose] of socket [k] (set in [setupEventHandlers]). *)
Definition onclose (k : Socket) (s : State) : State :=
  let s1 := remove_socket (sock_id k) s in
  let s2 := update_conn (with_status Disconnected) s1 in
  let s3 := stopHeartbeat s2 in
  let s4 := emit EmDisconnected s3 in
  handleReconnection s4.

(** The timer callbacks. *)
Definition run_callback (cb : TimerCb) (s : State) : State :=
  match cb with
  | ReconnectCb =>
      match connection s with
      | Some c => connect (sessionId c) (userId c) s
      | None => s
      end
  | HeartbeatCb =>
      (* a throwing [ws.send] is not caught: the callback ends there and the
         interval stays armed *)
      match ws s, connection s with
      | Some w, Some c =>
          if is_connected (status c)
          then match ws_send w PingFrame s with Some s' => s' | None => s end
          else s
      | _, _ => s
      end
  | BackoffCb sid uid attempt => establishConnection sid uid attempt s
  end.

(** [sendMessage(content)]: the new state and the exception thrown, if
    any. When [performSend]'s [ws.send] throws, the exception is caught and
    reported as an ['error'] event; nothing is thrown. *)
Definition sendMessage (content : string) (s : State) : State * option ClientError :=
  match ws s, connection s with
  | Some w, Some c =>
      if is_connected (status c)
      then match ws_send w (QueryFrame content) s with   (* performSend *)
           | Some s' => (s', None)
           | None => (emit EmError s, None)
           end
      else (s, Some webSocketNotConnectedError)
  | _, _ => (s, Some webSocketNotConnectedError)
  end.

(** [disconnect()]. [ws.close()] starts the closing handshake: the socket
    object keeps its handlers and the browser later delivers its close
    event. *)
Definition disconnect (s : State) : State :=
  let s1 := match reconnectTimer s with
            | Some r => set_reconnectTimer None (clearTimer r s)
            | None => s
            end in
  let s2 := stopHeartbeat s1 in
  let s3 := match ws s2 with
            | Some w => set_ws None (update_socket w (with_phase PClosing) s2)
            | None => s2
            end in
  update_conn (with_status Disconnected) s3.

(** What the outside world can do next. *)
Inductive Event :=
  | EvConnect (sid uid : string)   (* a caller invokes [connect] *)
  | EvOpen (w : nat)               (* the browser fires [open] on socket [w] *)
  | EvSocketError (w : nat)        (* ... [error] ... *)
  | EvClose (w : nat)              (* ... [close] ... *)
  | EvWait (d : nat)               (* [d] ms pass with no timer due *)
  | EvFire (t : nat)               (* the runtime runs timer [t] *)
  | EvDisconnect                   (* a caller invokes [disconnect] *)
  | EvSend (content : string).     (* a caller invokes [sendMessage] *)

Definition earliest_due (s : State) : option nat :=
  fold_right (fun t acc => match acc with
                           | Some m => Some (Nat.min (t_due t) m)
                           | None => Some (t_due t)
                           end) None (timers s).

(** The timer the runtime runs next: the first registered among those
    with the earliest due time. *)
Definition next_timer (s : State) : option Timer :=
  match earliest_due s with
  | Some m => List.find (fun t => Nat.eqb (t_due t) m) (timers s)
  | None => None
  end.

Definition rearm_or_drop (tm : Timer) (s : State) : State :=
  match t_period tm with
  | Some p =>
      set_timers (map (fun t => if Nat.eqb (t_id t) (t_id tm)
                                then mkTimer (t_id t) (t_cb t) (t_due t + p) (t_period t)
                                else t) (timers s)) s
  | None => clearTimer (t_id tm) s
  end.

(** One turn of the event loop; [None] when the event cannot happen in [s]. *)
Definition step (s : State) (ev : Event) : option State :=
  match ev with
  | EvConnect sid uid => Some (connect sid uid s)
  | EvOpen w =>
      match find_socket w (sockets s) with
      | Some k => match sock_phase k with PConnecting => Some (onopen k s) | _ => None end
      | None => None
      end
  | EvSocketError w =>
      match find_socket w (sockets s) with
      | Some k => match sock_phase k with PFailed => None | _ => Some (onerror k s) end
      | None => None
      end
  | EvClose w =>
      match find_socket w (sockets s) with
      | Some k => Some (onclose k s)
      | None => None
      end
  | EvWait d =>
      match earliest_due s with
      | Some m => if Nat.leb (now s + d) m then Some (set_now (now s + d) s) else None
      | None => Some (set_now (now s + d) s)
      end
  | EvFire t =>
      match next_timer s with
      | Some tm =>
          if Nat.eqb (t_id tm) t
          then Some (run_callback (t_cb tm) (rearm_or_drop tm (set_now (t_due tm) s)))
          else None
      | None => None
      end
  | EvDisconnect => Some (disconnect s)
  | EvSend content => Some (fst (sendMessage content s))
  end.

Fixpoint run (s : State) (evs : list Event) : option State :=
  match evs with
  | [] => Some s
  | ev :: rest => match step s ev with Some s' => run s' rest | None => None end
  end.
End Service.

(** The configuration of the unit tests
    (tests/unit/client/services/websocket-service.test.ts). *)
Definition test_config : WebSocketConfig := mkWsConfig 3 1000 30000.

(** The configuration of [websocketPlugin] (src/server/plugins/nes-websocket.ts). *)
Definition plugin_config : WebSocketConfig := mkWsConfig 1 1000 30000.

(** A session connects, the transport closes on its own, the reconnect
    fires and its socket fails 10 ms later (error, then close). Handles:
    socket 0, heartbeat 1, reconnect 2, socket 3, backoff sleep 4,
    reconnect 5. *)
Definition close_then_failed_reconnect : list Event :=
  [EvConnect "session-1" "user-1"; EvOpen 0; EvClose 0; EvFire 2;
   EvWait 10; EvSocketError 3; EvClose 3].

(** The same, continued: every later socket also fails 10 ms after it is
    created; the timers fire in due order. *)
Definition failing_reconnects : list Event :=
  close_then_failed_reconnect ++
  [EvFire 4; EvFire 5; EvWait 10; EvSocketError 6; EvClose 6; EvSocketError 7; EvClose 7].

(** A session connects and is then torn down by [disconnect]; the browser
    then delivers the close event of the socket [disconnect] closed. *)
Definition disconnect_then_close : list Event :=
  [EvConnect "session-1" "user-1"; EvOpen 0; EvDisconnect; EvClose 0].


(** [connect] is called a second time while the first socket is opening
    (as when the service's own reconnect timer and the manager's both fire);
    the first socket then opens. The connection says [connected] and
    [this.ws] is the second socket, still CONNECTING. *)
Definition reconnect_while_opening : list Event :=
  [EvConnect "session-1" "user-1"; EvConnect "session-1" "user-1"; EvOpen 0].

(** The state after [evs] from [init], or [init] if some event cannot happen. *)
Definition state_after (config : WebSocketConfig) (evs : list Event) : State :=
  match run config init evs with Some s => s | None => init end.



Definition gave_up (s : State) : bool :=
  existsb (fun e => match e with EmMaxRetriesReached => true | _ => false end) (emitted s).

Definition reconnect_pending (s : State) : bool :=
  existsb (fun t => match t_cb t with ReconnectCb => true | _ => false end) (timers s).

Definition conn_view (s : State) : option (Status * nat) :=
  option_map (fun c => (status c, retryCount c)) (connection s).

(** The three timer fields of the state. *)
Definition timer_view (s : State) : option nat * option nat * list Timer :=
  (reconnectTimer s, heartbeatTimer s, timers s).

End WebSocket.

(* ===================================================================== *)
(** ** Degradation levels, ordered *)

(** The three levels of [assessSystemHealth], from worst to best. *)
Definition level_rank (l : Degradation.LevelName) : nat :=
  match l with Degradation.Loffline => 0 | Degradation.Llimited => 1 | Degradation.Lfull => 2 end.

(** A service whose three probes all resolve [true], the persistence one
    being registered as ["Redis"]. *)
Definition all_healthy_but_redis_misnamed : Degradation.Service :=
  Degradation.registerHealthCheck
    (Degradation.registerHealthCheck
       (Degradation.registerHealthCheck Degradation.new_service "Redis"
          (fun _ => Degradation.Resolves true))
       "websocket" (fun _ => Degradation.Resolves true))
    "aiAgent" (fun _ => Degradation.Resolves true).

(* ===================================================================== *)
(** ** [CircuitBreakerService]: its registry of breakers

    What a breaker does when fired is the code of the opossum package; the
    service only builds the options, attaches logging listeners and keeps
    the breakers in a [Map] by name. [getBreakerStats] and
    [getAllBreakerStats] read [breaker.stats] and [breaker.name], which are
    opossum's getters, and are not modelled. *)

Module Breakers.

Record CircuitBreakerConfig := mkCbConfig {
  cb_timeout : nat;
  errorThreshold : nat;
  cb_resetTimeout : nat;
  cb_name : string;
  cb_volumeThreshold : option nat   (* optional field: [None] is undefined *)
}.

(** The options object handed to [new CircuitBreaker(fn, options)]. *)
Record BreakerOptions := mkOptions {
  timeout : nat;
  errorThresholdPercentage : nat;
  resetTimeout : nat;
  opt_name : string;
  volumeThreshold : nat
}.

(** A breaker object: its identity, the wrapped function (by identity) and
    the options it was constructed with. *)
Record Breaker := mkBreaker {
  br_id : nat;
  br_fn : nat;
  br_options : BreakerOptions
}.

Record BreakerService := mkBreakerService {
  breakers : list (string * Breaker);   (* a JS Map: insertion order *)
  next_breaker : nat                    (* identity of the next breaker object *)
}.

Definition new_breaker_service : BreakerService := mkBreakerService [] 0.

(** [config.volumeThreshold || 10]: [undefined] and [0] are falsy. *)
Definition volume_or_default (v : option nat) : nat :=
  match v with
  | Some n => if Nat.eqb n 0 then 10 else n
  | None => 10
  end.

Definition breaker_options (config : CircuitBreakerConfig) : BreakerOptions :=
  mkOptions (cb_timeout config) (errorThreshold config) (cb_resetTimeout config)
    (cb_name config) (volume_or_default (cb_volumeThreshold config)).

(** [createBreaker(fn, config)]; [setupEventHandlers] only attaches
    logging listeners. *)
Definition createBreaker (fn : nat) (config : CircuitBreakerConfig) (s : BreakerService)
    : Breaker * BreakerService :=
  let breaker := mkBreaker (next_breaker s) fn (breaker_options config) in
  (breaker, mkBreakerService (Degradation.map_set (cb_name config) breaker (breakers s))
                             (S (next_breaker s))).

(** [getBreaker(name)] *)
Definition getBreaker (s : BreakerService) (name : string) : option Breaker :=
  Degradation.assoc_lookup name (breakers s).

End Breakers.

(* ===================================================================== *)
(** ** Client-side [withRetry] (src/client/utils/retry.ts)

    The variant [connect] of [WebSocketService] uses. Each thrown value is
    kept as it is; the sleeps between calls are recorded. *)

Module ClientRetry.

Record RetryConfig := mkClientConfig {
  maxAttempts : nat;
  baseDelay : nat;
  maxDelay : nat;
  backoffMultiplier : nat
}.

(** [retryConfigs.websocket] and [retryConfigs.api] *)
Definition websocket_config : RetryConfig := mkClientConfig 3 1000 10000 2.
Definition api_config : RetryConfig := mkClientConfig 3 500 5000 2.

Section WithRetry.
Context {R : Type}.
Variable fn : nat -> Retry.Outcome R.
Variable config : RetryConfig.

(** [Math.min(config.baseDelay * Math.pow(config.backoffMultiplier, attempt - 1), config.maxDelay)] *)
Definition retry_delay (attempt : nat) : nat :=
  Nat.min (baseDelay config * backoffMultiplier config ^ (attempt - 1)) (maxDelay config).

(** The [for] loop from [attempt] on, with [fuel] iterations left: the
    result, the sleeps in order, and the number of calls of [fn]. *)
Fixpoint retry_loop (fuel attempt : nat) (lastError : option Retry.Error)
    : Retry.RetryResult R * list nat * nat :=
  match fuel with
  | 0 => (Retry.Thrown lastError, [], 0)
  | S fuel' =>
      match fn attempt with
      | Retry.Ok r => (Retry.Returned r, [], 1)
      | Retry.Err e =>
          if Nat.eqb attempt (maxAttempts config) then (Retry.Thrown (Some e), [], 1)
          else let '(res, sleeps, calls) := retry_loop fuel' (S attempt) (Some e) in
               (res, retry_delay attempt :: sleeps, S calls)
      end
  end.

(** [withRetry(fn, config)(...args)] *)
Definition withRetry : Retry.RetryResult R * list nat * nat :=
  retry_loop (maxAttempts config) 1 None.

(** [withExponentialBackoff(fn, config)] returns [withRetry(fn, config)]. *)
Definition withExponentialBackoff : Retry.RetryResult R * list nat * nat := withRetry.
End WithRetry.

End ClientRetry.

(* ===================================================================== *)
(** ** [HealthCheckService] (src/server/services/health-check-service.ts)

    The probes that the resilience plugin registers with the degradation
    service. The Redis client is reduced to the one field the service
    reads, [isOpen]; the outcome of [Promise.race([ping(), timeout 3000])]
    is an input. *)

Module Health.
Import WebSocket.

Inductive PingOutcome := PingReplies | PingRejects | PingTimesOut.

Record RedisClient := mkRedisClient { isOpen : bool }.

Record HealthCheckService := mkHealthCheckService { redis : option RedisClient }.

(** [constructor(wsService)]: [process.env.REDIS_URL] is undefined or a
    string, and the empty string is falsy. A new client is not open yet. *)
Definition new_health_check_service (redis_url : option string) : HealthCheckService :=
  match redis_url with
  | Some url => if String.eqb url "" then mkHealthCheckService None
                else mkHealthCheckService (Some (mkRedisClient false))
  | None => mkHealthCheckService None
  end.

(** What the client does on its own: its socket opens ([isOpen] becomes
    true), or it emits ['error'] or ['end'], or the [connect()] promise
    rejects. The last three reach the service's listeners, which set
    [this.redis = null]. *)
Inductive RedisEvent := RedisOpened | RedisError | RedisEnd | RedisConnectRejected.

Definition on_redis_event (e : RedisEvent) (h : HealthCheckService) : HealthCheckService :=
  match e with
  | RedisOpened =>
      match redis h with
      | Some _ => mkHealthCheckService (Some (mkRedisClient true))
      | None => h
      end
  | RedisError | RedisEnd | RedisConnectRejected => mkHealthCheckService None
  end.

(** [checkRedis()] *)
Definition checkRedis (p : PingOutcome) (h : HealthCheckService) : HealthCheckService * bool :=
  match redis h with
  | None => (h, false)
  | Some c =>
      if negb (isOpen c) then (h, false)
      else match p with
           | PingReplies => (h, true)
           | PingRejects | PingTimesOut => (mkHealthCheckService None, false)
           end
  end.

(** [this.wsService] is a [WebSocketService] ([Some s]) or [undefined]
    ([None]), on which a method call throws a [TypeError]. *)

(** [checkWebSocket()]: [connection?.status === 'connected']; a throw is
    caught and gives false. *)
Definition checkWebSocket (wsService : option State) : bool :=
  match wsService with
  | Some s => match connection s with Some c => is_connected (status c) | None => false end
  | None => false
  end.

(** [checkAIAgent()]: [wsService.sendMessage('ping', ...)], the extra
    argument being ignored; true unless it throws. *)
Definition checkAIAgent (wsService : option State) : option State * bool :=
  match wsService with
  | Some s =>
      match sendMessage "ping" s with
      | (s', None) => (Some s', true)
      | (s', Some _) => (Some s', false)
      end
  | None => (None, false)
  end.

Inductive OverallStatus := Healthy | Degraded.

Record SystemHealth := mkSystemHealth {
  overall : OverallStatus;
  redis_healthy : bool;
  websocket_healthy : bool;
  aiAgent_healthy : bool
}.

(** [getSystemHealth()]: the three checks, then the report. *)
Definition getSystemHealth (p : PingOutcome) (h : HealthCheckService) (s : option State)
    : HealthCheckService * option State * SystemHealth :=
  let '(h1, r) := checkRedis p h in
  let w := checkWebSocket s in
  let '(s1, a) := checkAIAgent s in
  (h1, s1, mkSystemHealth (if r && w && a then Healthy else Degraded) r w a).

(** A sequence of checks and client events. *)
Inductive HealthOp := OpCheckRedis (p : PingOutcome) | OpRedisEvent (e : RedisEvent).

(** Runs the operations; the results of the [checkRedis] calls, in order. *)
Fixpoint run_health (h : HealthCheckService) (ops : list HealthOp) : HealthCheckService * list bool :=
  match ops with
  | [] => (h, [])
  | OpCheckRedis p :: rest =>
      let '(h1, b) := checkRedis p h in
      let '(h2, bs) := run_health h1 rest in (h2, b :: bs)
  | OpRedisEvent e :: rest => run_health (on_redis_event e h) rest
  end.

(** [server.app.wsService], which the resilience plugin hands to its
    [HealthCheckService]: nothing in the repository assigns it (the
    websocket plugin publishes its service with [server.decorate]). *)
Definition plugin_wsService : option State := None.

(** The degradation service of the resilience plugin
    (src/server/plugins/resilience.ts) at one assessment: the probes
    ['redis'], ['websocket'] and ['aiAgent'], registered in that order. None
    of them changes what the others read. *)
Definition plugin_service (p : PingOutcome) (h : HealthCheckService) : Degradation.Service :=
  Degradation.registerHealthCheck
    (Degradation.registerHealthCheck
       (Degradation.registerHealthCheck Degradation.new_service
          "redis" (fun _ => Degradation.Resolves (snd (checkRedis p h))))
       "websocket" (fun _ => Degradation.Resolves (checkWebSocket plugin_wsService)))
    "aiAgent" (fun _ => Degradation.Resolves (snd (checkAIAgent plugin_wsService))).

End Health.

(* ===================================================================== *)
(** ** [ResilienceManager] (src/client/services/resilience-manager.ts)

    The client-side wrapper around [WebSocketService]. A queued entry is
    reduced to its [content], the only field read back. The listeners the
    manager registers are delivered as events of their own, as is every
    step of the transport: an ['error'] the service emits, also one from
    inside a [sendMessage] the manager calls, reaches [handleError] as an
    [MError] event of the run. *)

Module Manager.
Import WebSocket.

Record Manager := mkManager {
  messageQueue : list string;
  isOnline : bool;
  retryAttempts : nat;
  reconnects : list nat    (* delays of the timers [scheduleReconnect] set, in order *)
}.

Definition maxRetryAttempts : nat := 5.

(** [constructor(wsService)], with [navigator.onLine] *)
Definition new_manager (online : bool) : Manager := mkManager [] online 0 [].

(** [getConnectionStatus()?.status === 'connected'] *)
Definition status_connected (s : State) : bool :=
  match connection s with Some c => is_connected (status c) | None => false end.

(** [queueMessage(message)] *)
Definition queueMessage (content : string) (m : Manager) : Manager :=
  mkManager (messageQueue m ++ [content])%list (isOnline m) (retryAttempts m) (reconnects m).

(** [scheduleReconnect()] *)
Definition scheduleReconnect (m : Manager) : Manager :=
  let delay := Nat.min (1000 * 2 ^ retryAttempts m) 30000 in
  mkManager (messageQueue m) (isOnline m) (S (retryAttempts m)) (reconnects m ++ [delay])%list.

(** The callback of a scheduled reconnect. *)
Definition reconnect_callback (m : Manager) (s : State) : State :=
  if isOnline m then
    match connection s with
    | Some c => connect (sessionId c) (userId c) s
    | None => connect "" "" s
    end
  else s.

(** The [for] loop of [processQueuedMessages] over the copied queue. *)
Fixpoint send_queued (msgs q : list string) (s : State) : list string * State :=
  match msgs with
  | [] => (q, s)
  | x :: rest =>
      match sendMessage x s with
      | (s', None) => send_queued rest q s'
      | (s', Some _) => send_queued rest (q ++ [x])%list s'
      end
  end.

(** [processQueuedMessages()] *)
Definition processQueuedMessages (m : Manager) (s : State) : Manager * State :=
  match messageQueue m with
  | [] => (m, s)
  | _ =>
      if negb (status_connected s) then (m, s)
      else let '(q, s') := send_queued (messageQueue m) [] s in
           (mkManager q (isOnline m) (retryAttempts m) (reconnects m), s')
  end.

(** [handleOnline()] *)
Definition handleOnline (m : Manager) (s : State) : Manager * State :=
  processQueuedMessages (mkManager (messageQueue m) true 0 (reconnects m)) s.

(** [handleOffline()] *)
Definition handleOffline (m : Manager) : Manager :=
  mkManager (messageQueue m) false (retryAttempts m) (reconnects m).

(** [handleConnected()] *)
Definition handleConnected (m : Manager) (s : State) : Manager * State :=
  processQueuedMessages (mkManager (messageQueue m) (isOnline m) 0 (reconnects m)) s.

(** [handleDisconnected()] *)
Definition handleDisconnected (m : Manager) : Manager :=
  if isOnline m && Nat.ltb (retryAttempts m) maxRetryAttempts then scheduleReconnect m else m.

(** [handleError(error)] *)
Definition handleError (m : Manager) : Manager :=
  if Nat.ltb (retryAttempts m) maxRetryAttempts then scheduleReconnect m else m.

(** [sendMessage(content, metadata)] *)
Definition mgr_sendMessage (content : string) (m : Manager) (s : State) : Manager * State :=
  if status_connected s then
    match WebSocket.sendMessage content s with
    | (s', None) => (m, s')
    | (s', Some _) => (queueMessage content m, s')
    end
  else (queueMessage content m, s).

(** [getQueueSize()] *)
Definition getQueueSize (m : Manager) : nat := List.length (messageQueue m).

Inductive MgrEvent :=
  | MOnline | MOffline | MConnected | MDisconnected | MError
  | MSend (content : string)
  | MTransport (e : Event).

Section Run.
Variable config : WebSocketConfig.

Definition mgr_step (ms : Manager * State) (ev : MgrEvent) : option (Manager * State) :=
  let '(m, s) := ms in
  match ev with
  | MOnline => Some (handleOnline m s)
  | MOffline => Some (handleOffline m, s)
  | MConnected => Some (handleConnected m s)
  | MDisconnected => Some (handleDisconnected m, s)
  | MError => Some (handleError m, s)
  | MSend content => Some (mgr_sendMessage content m s)
  | MTransport e => match step config s e with Some s' => Some (m, s') | None => None end
  end.

Fixpoint mgr_run (ms : Manager * State) (evs : list MgrEvent) : option (Manager * State) :=
  match evs with
  | [] => Some ms
  | ev :: rest => match mgr_step ms ev with Some ms' => mgr_run ms' rest | None => None end
  end.
End Run.

(** Does not reset [retryAttempts]. *)
Definition no_reset (ev : MgrEvent) : bool :=
  match ev with MOnline | MConnected => false | _ => true end.

End Manager.

(* ===================================================================== *)
(** ** Attempt numbers of the retry loop of [connect] *)

(** A pending backoff sleep resumes attempt 2 or 3. *)
Definition timer_attempt_ok (t : WebSocket.Timer) : bool :=
  match WebSocket.t_cb t with
  | WebSocket.BackoffCb _ _ a => Nat.leb 2 a && Nat.leb a 3
  | _ => true
  end.

(** A live socket was created by attempt 1, 2 or 3. *)
Definition socket_attempt_ok (k : WebSocket.Socket) : bool :=
  Nat.leb 1 (WebSocket.sock_attempt k) && Nat.leb (WebSocket.sock_attempt k) 3.

Definition attempts_ok (s : WebSocket.State) : bool :=
  forallb timer_attempt_ok (WebSocket.timers s) && forallb socket_attempt_ok (WebSocket.sockets s).

(* ===================================================================== *)
(** * Properties *)

Import Degradation.

(** ** Degradation: supporting lemmas *)

Lemma map_set_fst_notin {V} (k : string) (v : V) (m : list (string * V)) :
  k ∉ map fst m -> map fst (map_set k v m) = (map fst m ++ [k])%list.
Proof.
  induction m as [|[k' v'] m IH]; intros Hn; simpl; [done|].
  destruct (String.eqb_spec k k') as [->|Hne].
  - exfalso. apply Hn. simpl. set_solver.
  - simpl. f_equal. apply IH. intros Hin. apply Hn. simpl. set_solver.
Qed.

Lemma map_set_fst_in {V} (k : string) (v : V) (m : list (string * V)) :
  k ∈ map fst m -> map fst (map_set k v m) = map fst m.
Proof.
  induction m as [|[k' v'] m IH]; intros Hin; simpl.
  - inversion Hin.
  - destruct (String.eqb_spec k k') as [->|Hne]; simpl; [done|].
    f_equal. apply IH. simpl in Hin. apply elem_of_cons in Hin as [->|Hin]; [done|done].
Qed.

(** [registerHealthCheck] keeps the registry free of duplicate names. *)
Lemma registerHealthCheck_NoDup (s : Service) (name : string) (p : Probe) :
  NoDup (map fst (healthChecks s)) ->
  NoDup (map fst (healthChecks (registerHealthCheck s name p))).
Proof.
  intros Hnd. simpl.
  destruct (decide (name ∈ map fst (healthChecks s))) as [Hin|Hn].
  - rewrite map_set_fst_in; done.
  - rewrite map_set_fst_notin by done.
    apply NoDup_app. split; [done|]. split; [|apply NoDup_singleton].
    intros x Hx Hy. apply list_elem_of_singleton in Hy. subst. done.
Qed.

Lemma record_result_lookup_eq (name : string) (b : bool) (r : gmap string bool) :
  name <> "__proto__" -> record_result name b r !! name = Some b.
Proof.
  intros Hn. unfold record_result. apply String.eqb_neq in Hn. rewrite Hn.
  apply lookup_insert_eq.
Qed.

Lemma record_result_lookup_ne (name n : string) (b : bool) (r : gmap string bool) :
  n <> name \/ n = "__proto__" -> record_result name b r !! n = r !! n.
Proof.
  intros H. unfold record_result.
  destruct (String.eqb_spec name "__proto__") as [->|Hp]; [done|].
  apply lookup_insert_ne. intros <-. destruct H; congruence.
Qed.

Lemma check_loop_settles (checks : list (string * Probe)) (t : nat) (r : gmap string bool) :
  NoDup (map fst checks) ->
  (forall name p, In (name, p) checks -> p t <> NeverSettles) ->
  exists hs, check_loop checks t r = Some hs /\
    (forall name p, In (name, p) checks -> name <> "__proto__" ->
       hs !! name = Some (settled_value (p t))) /\
    (forall name, name ∉ map fst checks \/ name = "__proto__" -> hs !! name = r !! name).
Proof.
  revert r. induction checks as [|[n p] rest IH]; intros r Hnd Hset; simpl.
  - exists r. split; [done|]. split; [intros ?? []|done].
  - inversion Hnd as [|?? Hn Hnd']; subst.
    assert (Hrest : forall name q, In (name, q) rest -> q t <> NeverSettles)
      by (intros; apply (Hset name); right; done).
    assert (Hp : p t <> NeverSettles) by (apply (Hset n); left; done).
    assert (Hb : exists b, check_loop ((n, p) :: rest) t r = check_loop rest t (record_result n b r)
                           /\ b = settled_value (p t)).
    { simpl. destruct (p t) as [b|msg|]; [exists b | exists false | done]; done. }
    destruct Hb as (b & Hstep & Hbv). simpl in Hstep. rewrite Hstep.
    destruct (IH (record_result n b r) Hnd' Hrest) as (hs & Hrun & Hin & Hout).
    exists hs. split; [done|]. split.
    + intros name q [Heq|Hq] Hname.
      * injection Heq as <- <-. rewrite Hout by (left; done). subst b.
        apply record_result_lookup_eq. done.
      * apply Hin; done.
    + intros name [Hname|Hname].
      * rewrite Hout by (left; intros H; apply Hname; right; done).
        apply record_result_lookup_ne. left. intros ->. apply Hname. left.
      * rewrite Hout by (right; done). apply record_result_lookup_ne. right. done.
Qed.

Lemma check_loop_keys (checks : list (string * Probe)) (t : nat) (r hs : gmap string bool) :
  check_loop checks t r = Some hs ->
  forall name, hs !! name <> None -> r !! name <> None \/ name ∈ map fst checks.
Proof.
  revert r. induction checks as [|[n p] rest IH]; intros r Hrun name Hname; simpl in Hrun.
  - injection Hrun as <-. left. done.
  - destruct (p t) as [b|msg|]; [| |done];
      destruct (IH _ Hrun name Hname) as [Hr|Hr]; try (right; right; done);
      (destruct (String.eqb_spec name n) as [->|Hne]; [right; left|]);
      left; rewrite record_result_lookup_ne in Hr by (left; done); done.
Qed.

(** A registered probe that never settles suspends the loop for good. *)
Lemma check_loop_hangs (checks : list (string * Probe)) (t : nat) (r : gmap string bool)
    (name : string) (p : Probe) :
  In (name, p) checks -> p t = NeverSettles -> check_loop checks t r = None.
Proof.
  revert r. induction checks as [|[n q] rest IH]; intros r Hin Hp; [destruct Hin|].
  simpl. destruct Hin as [Heq|Hin].
  - injection Heq as <- <-. rewrite Hp. done.
  - destruct (q t); [apply IH; done | apply IH; done | done].
Qed.

(** ** Degradation: claims *)

(** C2. For every health map [hs] that [assessSystemHealth] reads: all of
    [redis], [websocket], [aiAgent] healthy gives the Full level; [redis]
    healthy and one (not both) of the other two healthy gives the Limited
    level, whose features are [session-storage] (the persistence feature) and
    [message-queue] and whose fallbacks are "queue for later" for
    [sendMessage] and "cached messages" for [getMessages]; otherwise the
    level is Offline. The new level is the one the service then holds. *)
Theorem assessSystemHealth_decision_table (s s' : Service) (t : nat) (lvl : DegradationLevel) :
  assessSystemHealth s t = Some (s', lvl) ->
  exists hs, checkAllServices s t = Some hs /\ getCurrentLevel s' = lvl /\
    (truthy hs "redis" = true /\ truthy hs "websocket" = true /\ truthy hs "aiAgent" = true ->
       lvl = full_level /\ level lvl = Lfull /\ fallbackActions lvl = []) /\
    (truthy hs "redis" = true /\ (truthy hs "websocket" = true \/ truthy hs "aiAgent" = true) /\
     ~ (truthy hs "websocket" = true /\ truthy hs "aiAgent" = true) ->
       level lvl = Llimited /\ features lvl = ["session-storage"; "message-queue"] /\
       getFallbackAction s' "sendMessage" = Some QueueMessageForLater /\
       getFallbackAction s' "getMessages" = Some GetCachedMessages) /\
    (~ (truthy hs "redis" = true /\ (truthy hs "websocket" = true \/ truthy hs "aiAgent" = true)) ->
       level lvl = Loffline).
Proof.
  unfold assessSystemHealth. intros H.
  destruct (checkAllServices s t) as [hs|] eqn:Hc; [|discriminate].
  injection H as <- <-. exists hs. split; [done|]. split; [done|].
  unfold decide_level.
  destruct (truthy hs "redis"), (truthy hs "websocket"), (truthy hs "aiAgent");
    simpl; repeat split; intuition congruence.
Qed.

Lemma assessSystemHealth_decision_table_witness :
  assessSystemHealth all_healthy 0 = Some (mkService full_level (healthChecks all_healthy), full_level) /\
  exists hs, checkAllServices all_healthy 0 = Some hs /\
    getCurrentLevel (mkService full_level (healthChecks all_healthy)) = full_level /\
    (truthy hs "redis" = true /\ truthy hs "websocket" = true /\ truthy hs "aiAgent" = true ->
       full_level = full_level /\ level full_level = Lfull /\ fallbackActions full_level = []) /\
    (truthy hs "redis" = true /\ (truthy hs "websocket" = true \/ truthy hs "aiAgent" = true) /\
     ~ (truthy hs "websocket" = true /\ truthy hs "aiAgent" = true) ->
       level full_level = Llimited /\ features full_level = ["session-storage"; "message-queue"] /\
       getFallbackAction (mkService full_level (healthChecks all_healthy)) "sendMessage" = Some QueueMessageForLater /\
       getFallbackAction (mkService full_level (healthChecks all_healthy)) "getMessages" = Some GetCachedMessages) /\
    (~ (truthy hs "redis" = true /\ (truthy hs "websocket" = true \/ truthy hs "aiAgent" = true)) ->
       level full_level = Loffline).
Proof.
  split; [reflexivity|].
  apply (assessSystemHealth_decision_table all_healthy _ 0 full_level).
  reflexivity.
Defined.

(** C8, as the claim states it, fails: there is no timeout around a probe.
    A registered probe that never settles is never recorded as [false];
    the assessment itself never completes. *)
Lemma assessSystemHealth_hanging_probe :
  checkAllServices (registerHealthCheck new_service "redis" (fun _ => NeverSettles)) 0 = None /\
  assessSystemHealth (registerHealthCheck new_service "redis" (fun _ => NeverSettles)) 0 = None.
Proof. split; reflexivity. Qed.

(** C8 (amended). If every registered probe settles, [checkAllServices]
    returns a map with an entry for every registered name other than
    ["__proto__"] and no other entry: the resolved boolean, or [false] for a
    probe that threw or rejected; and [assessSystemHealth] returns normally
    with the level for that map. If some registered probe never settles,
    neither [checkAllServices] nor [assessSystemHealth] completes. *)
Theorem checkAllServices_records_settled_probes (s : Service) (t : nat) :
  (NoDup (map fst (healthChecks s)) ->
   (forall name p, In (name, p) (healthChecks s) -> p t <> NeverSettles) ->
   exists hs, checkAllServices s t = Some hs /\
     assessSystemHealth s t = Some (mkService (decide_level hs) (healthChecks s), decide_level hs) /\
     (forall name p, In (name, p) (healthChecks s) -> name <> "__proto__" ->
        hs !! name = Some (settled_value (p t))) /\
     (forall name p msg, In (name, p) (healthChecks s) -> name <> "__proto__" ->
        p t = Rejects msg -> hs !! name = Some false) /\
     (forall name, hs !! name <> None -> name ∈ map fst (healthChecks s) /\ name <> "__proto__")) /\
  ((exists name p, In (name, p) (healthChecks s) /\ p t = NeverSettles) ->
   checkAllServices s t = None /\ assessSystemHealth s t = None).
Proof.
  split.
  - intros Hnd Hset.
    destruct (check_loop_settles (healthChecks s) t ∅ Hnd Hset) as (hs & Hrun & Hin & Hout).
    exists hs. unfold assessSystemHealth, checkAllServices. rewrite Hrun.
    split; [done|]. split; [done|]. split; [done|]. split.
    + intros name p msg Hnp Hname Hp. rewrite (Hin name p Hnp Hname), Hp. done.
    + intros name Hname. split.
      * destruct (check_loop_keys _ _ _ _ Hrun name Hname) as [H|H]; [|done].
        rewrite lookup_empty in H. done.
      * intros ->. rewrite Hout in Hname by (right; done). rewrite lookup_empty in Hname. done.
  - intros (name & p & Hin & Hp).
    unfold assessSystemHealth, checkAllServices.
    rewrite (check_loop_hangs _ t ∅ name p Hin Hp). done.
Qed.

(** The two cases at work: [redis] resolves and [websocket] throws; a
    single probe that never settles. *)
Lemma checkAllServices_records_settled_probes_witness :
  (exists hs, checkAllServices one_probe_throws 0 = Some hs /\
     hs !! "redis" = Some true /\ hs !! "websocket" = Some false) /\
  checkAllServices (registerHealthCheck new_service "redis" (fun _ => NeverSettles)) 0 = None.
Proof.
  assert (Hnd : NoDup (map fst (healthChecks one_probe_throws)))
    by (simpl; repeat constructor; set_solver).
  assert (Hset : forall name p, In (name, p) (healthChecks one_probe_throws) -> p 0 <> NeverSettles)
    by (simpl; intros name p [H|[H|[]]]; injection H as <- <-; discriminate).
  split.
  - destruct (proj1 (checkAllServices_records_settled_probes one_probe_throws 0) Hnd Hset)
      as (hs & Hc & _ & Hin & _).
    exists hs. split; [exact Hc|]. split.
    + exact (Hin "redis" (fun _ => Resolves true) (or_introl eq_refl) ltac:(discriminate)).
    + exact (Hin "websocket" (fun _ => Rejects "fetch failed") (or_intror (or_introl eq_refl))
               ltac:(discriminate)).
  - apply (proj2 (checkAllServices_records_settled_probes
                    (registerHealthCheck new_service "redis" (fun _ => NeverSettles)) 0)).
    exists "redis", (fun _ => NeverSettles). split; [left; reflexivity | reflexivity].
Defined.

(** C10. A freshly constructed service, whatever health checks are
    registered afterwards and before any assessment, holds the Full level:
    features [websocket], [ai-agent], [session-storage], [real-time], no
    fallback actions, and [canUseFeature] is true for each of those features. *)
Theorem fresh_service_reports_full (regs : list (string * Probe)) :
  let s := fold_left (fun acc np => registerHealthCheck acc (fst np) (snd np)) regs new_service in
  getCurrentLevel s = full_level /\
  level (getCurrentLevel s) = Lfull /\
  features (getCurrentLevel s) = ["websocket"; "ai-agent"; "session-storage"; "real-time"] /\
  fallbackActions (getCurrentLevel s) = [] /\
  forallb (canUseFeature s) ["websocket"; "ai-agent"; "session-storage"; "real-time"] = true /\
  getFallbackAction s "sendMessage" = None /\
  getFallbackAction s "getMessages" = None.
Proof.
  simpl.
  assert (Hlvl : forall acc, currentLevel acc = full_level ->
    currentLevel (fold_left (fun acc np => registerHealthCheck acc (fst np) (snd np)) regs acc) = full_level).
  { induction regs as [|[n p] regs IH]; intros acc Hacc; simpl; [done|]. apply IH. done. }
  unfold getCurrentLevel, canUseFeature, getFallbackAction.
  rewrite (Hlvl new_service eq_refl). repeat split.
Qed.

(** ** Retry: supporting lemmas *)

Import Retry.

Section RetryLemmas.
Context {R : Type}.
Variable fn : nat -> Outcome R.
Variable config : RetryConfig.

Lemma retry_loop_success (j : nat) :
  forall a fuel last v,
    1 <= a -> a + fuel = S (maxAttempts config) -> a + j <= maxAttempts config ->
    (forall i, a <= i < a + j -> (exists e, fn i = Err e /\ retryCondition config e = true)) ->
    fn (a + j) = Ok v ->
    retry_loop fn config fuel a last = (Returned v, S j).
Proof.
  induction j as [|j IH]; intros a fuel last v Ha Hfuel Hj Hfail Hok.
  - destruct fuel as [|fuel]; [lia|]. simpl.
    rewrite Nat.add_0_r in Hok. rewrite Hok. done.
  - destruct fuel as [|fuel]; [lia|]. simpl.
    destruct (Hfail a ltac:(lia)) as (e & He & Hr). rewrite He, Hr.
    destruct (Nat.eqb_spec a (maxAttempts config)) as [Heq|Hne]; [lia|]. simpl.
    rewrite (IH (S a) fuel (Some e) v); [done|lia|lia|lia| |].
    + intros i Hi. apply Hfail. lia.
    + replace (S a + j) with (a + S j) by lia. done.
Qed.

Lemma retry_loop_all_fail :
  forall fuel a last,
    1 <= a -> a + fuel = S (maxAttempts config) ->
    (forall i, (exists e, fn i = Err e /\ retryCondition config e = true)) ->
    snd (retry_loop fn config fuel a last) = fuel.
Proof.
  induction fuel as [|fuel IH]; intros a last Ha Hfuel Hfail; [done|]. simpl.
  destruct (Hfail a) as (e & He & Hr). rewrite He, Hr.
  destruct (Nat.eqb_spec a (maxAttempts config)) as [Heq|Hne]; simpl.
  - assert (fuel = 0) by lia. subst. done.
  - destruct (retry_loop fn config fuel (S a) (Some e)) as [res calls] eqn:Hl. simpl.
    f_equal. rewrite <- (IH (S a) (Some e)); [rewrite Hl; done|lia|lia|done].
Qed.

Lemma retry_loop_thrown :
  forall fuel a last x,
    1 <= a -> 1 <= fuel -> a + fuel = S (maxAttempts config) ->
    fst (retry_loop fn config fuel a last) = Thrown x ->
    exists a' e, a <= a' <= maxAttempts config /\ fn a' = Err e /\
      x = Some (terminal_error config e) /\
      (retryCondition config e = true -> a' = maxAttempts config).
Proof.
  induction fuel as [|fuel IH]; intros a last x Ha Hf Hfuel Hth; [lia|]. simpl in Hth.
  destruct (fn a) as [r|e] eqn:He; [discriminate|].
  destruct (Nat.eqb_spec a (maxAttempts config)) as [Heq|Hne]; simpl in Hth.
  - injection Hth as <-. exists a, e. repeat split; try done; lia.
  - destruct (retryCondition config e) eqn:Hr; simpl in Hth.
    + destruct (retry_loop fn config fuel (S a) (Some e)) as [res calls] eqn:Hl.
      simpl in Hth. subst res.
      destruct (IH (S a) (Some e) x) as (a' & e' & Hbounds & Hrest); [lia|lia|lia|rewrite Hl; done|].
      exists a', e'. split; [lia|done].
    + injection Hth as <-. exists a, e. repeat split; try done; try lia. intros; congruence.
Qed.
End RetryLemmas.

(** ** Retry: claims *)

(** C3. For every retry configuration: if the wrapped operation fails with
    errors that [retryCondition] classifies retryable on its first [k] calls,
    [k < maxAttempts], and then succeeds with [v], [withRetry] returns [v]
    after exactly [k + 1] calls; and if every call fails with a retryable
    error, the operation is called exactly [maxAttempts] times. *)
Theorem withRetry_call_count {R : Type} (fn : nat -> Outcome R) (config : RetryConfig) :
  (forall k v,
     k < maxAttempts config ->
     (forall i, 1 <= i <= k -> exists e, fn i = Err e /\ retryCondition config e = true) ->
     fn (S k) = Ok v ->
     withRetry fn config = (Returned v, S k)) /\
  ((forall i, exists e, fn i = Err e /\ retryCondition config e = true) ->
     snd (withRetry fn config) = maxAttempts config).
Proof.
  split.
  - intros k v Hk Hfail Hok. unfold withRetry.
    apply (retry_loop_success fn config k 1); [lia|lia|lia| |done].
    intros i Hi. apply Hfail. lia.
  - intros Hfail. unfold withRetry.
    apply retry_loop_all_fail; [lia|lia|done].
Qed.

Lemma withRetry_call_count_witness :
  2 < maxAttempts api_config /\
  withRetry flaky_op api_config = (Returned 42, 3) /\
  snd (withRetry (fun _ => @Err nat (plain_error "ECONNRESET")) api_config) = 3.
Proof.
  destruct (withRetry_call_count flaky_op api_config) as [Hsucc _].
  destruct (withRetry_call_count (fun _ => @Err nat (plain_error "ECONNRESET")) api_config)
    as [_ Hall].
  split; [simpl; lia|]. split.
  - apply (Hsucc 2 42); [simpl; lia| |reflexivity].
    intros i Hi. exists (plain_error "ECONNRESET"). split; [|reflexivity].
    unfold flaky_op. destruct (Nat.leb_spec i 2); [reflexivity|lia].
  - apply Hall. intros i. exists (plain_error "ECONNRESET"). split; reflexivity.
Defined.

(** C6. For every configuration with [maxAttempts >= 1], when [withRetry]
    ends in failure it throws the error [e'] derived from the error [e] of
    some call [a]: [e'] is a [RetryableError] or a [NonRetryableError]; an
    [e] that already is one of them is rethrown unchanged; any other [e] is
    wrapped as a [RetryableError] when [retryCondition e] holds, which only
    happens once the attempts have run out ([a = maxAttempts]), and as a
    [NonRetryableError] otherwise, keeping its message. *)
Theorem withRetry_failure_is_tagged {R : Type} (fn : nat -> Outcome R) (config : RetryConfig)
    (x : option Error) :
  1 <= maxAttempts config ->
  fst (withRetry fn config) = Thrown x ->
  exists a e e', 1 <= a <= maxAttempts config /\ fn a = Err e /\ x = Some e' /\
    (kind e' = KRetryable \/ kind e' = KNonRetryable) /\
    (kind e <> KOther -> e' = e) /\
    (kind e = KOther -> retryCondition config e = true ->
       a = maxAttempts config /\ e' = newRetryableError (message e)) /\
    (kind e = KOther -> retryCondition config e = false ->
       e' = newNonRetryableError (message e)).
Proof.
  intros Hmax Hth. unfold withRetry in Hth.
  destruct (retry_loop_thrown fn config (maxAttempts config) 1 None x)
    as (a & e & Hb & He & Hx & Hlast); [lia|lia|lia|done|].
  exists a, e, (terminal_error config e). split; [lia|]. split; [done|]. split; [done|].
  unfold terminal_error.
  destruct (kind e) eqn:Hk; [split; [left; done|]|split; [right; done|]|];
    try (repeat split; intros; try done; congruence).
  destruct (retryCondition config e) eqn:Hr.
  - split; [left; done|]. repeat split; intros; try done; try congruence. apply Hlast. done.
  - split; [right; done|]. repeat split; intros; try done; congruence.
Qed.

Lemma withRetry_failure_is_tagged_witness :
  1 <= maxAttempts api_config /\
  fst (withRetry (fun _ => @Err nat (plain_error "ECONNRESET")) api_config)
    = Thrown (Some (newRetryableError "ECONNRESET")) /\
  exists a e e', 1 <= a <= maxAttempts api_config /\
    (fun _ => @Err nat (plain_error "ECONNRESET")) a = Err e /\
    Some (newRetryableError "ECONNRESET") = Some e' /\
    (kind e' = KRetryable \/ kind e' = KNonRetryable) /\
    (kind e <> KOther -> e' = e) /\
    (kind e = KOther -> retryCondition api_config e = true ->
       a = maxAttempts api_config /\ e' = newRetryableError (message e)) /\
    (kind e = KOther -> retryCondition api_config e = false ->
       e' = newNonRetryableError (message e)).
Proof.
  split; [simpl; lia|]. split; [reflexivity|].
  apply (withRetry_failure_is_tagged (fun _ => @Err nat (plain_error "ECONNRESET")) api_config);
    [simpl; lia|reflexivity].
Defined.

(** ** Transport: supporting lemmas *)

Import WebSocket.

(** [onopen] puts the current connection in [Connected] with [retryCount = 0]. *)
Lemma onopen_resets_retryCount (config : WebSocketConfig) (k : Socket) (s : State) (c : Connection) :
  connection s = Some c ->
  connection (onopen config k s) = Some (with_retryCount 0 (with_status Connected c)).
Proof. intros Hc. unfold onopen, update_conn. simpl. rewrite Hc. reflexivity. Qed.

(** [handleReconnection] below the limit adds exactly one to [retryCount]
    and arms a reconnect timer. *)
Lemma handleReconnection_increments (config : WebSocketConfig) (s : State) (c : Connection) :
  connection s = Some c -> retryCount c < reconnectAttempts config ->
  connection (handleReconnection config s)
    = Some (with_retryCount (S (retryCount c)) (with_status Reconnecting c)) /\
  reconnectTimer (handleReconnection config s) = Some (next_id s) /\
  pending (next_id s) (handleReconnection config s) = true.
Proof.
  intros Hc Hlt. unfold handleReconnection. rewrite Hc.
  destruct (Nat.leb_spec (reconnectAttempts config) (retryCount c)) as [Hle|_]; [lia|].
  simpl. split; [done|]. split; [done|].
  unfold pending. simpl. apply existsb_exists.
  exists (mkTimer (next_id s) ReconnectCb (now s + reconnectDelay config * S (retryCount c)) None).
  split; [apply in_or_app; right; left; done|apply Nat.eqb_refl].
Qed.

(** Every call of [establishConnection], the first attempt of a reconnect
    included, installs a new connection object with [retryCount = 0]. *)
Lemma establishConnection_resets_retryCount (sid uid : string) (a : nat) (s : State) :
  connection (establishConnection sid uid a s) = Some (mkConn sid uid Connecting 0).
Proof. reflexivity. Qed.

Lemma clearTimer_not_pending (id : nat) (s : State) : pending id (clearTimer id s) = false.
Proof.
  unfold pending, clearTimer. simpl. apply Is_true_false. intros H.
  apply Is_true_eq_true, existsb_exists in H as (t & Hin & Heq).
  apply filter_In in Hin as [_ Hneg]. rewrite Heq in Hneg. discriminate.
Qed.

Lemma pending_clearTimer_other (id id' : nat) (s : State) :
  pending id' s = false -> pending id' (clearTimer id s) = false.
Proof.
  unfold pending, clearTimer. simpl. intros H. apply Is_true_false. intros H'.
  apply Is_true_eq_true, existsb_exists in H' as (t & Hin & Heq).
  apply filter_In in Hin as [Hin _].
  assert (existsb (fun t => Nat.eqb (t_id t) id') (timers s) = true)
    by (apply existsb_exists; exists t; done). congruence.
Qed.

Lemma timer_view_pending (s s' : State) (x : nat) :
  timer_view s = timer_view s' -> pending x s = pending x s'.
Proof. unfold timer_view, pending. intros H. injection H as _ _ ->. reflexivity. Qed.

Lemma stopHeartbeat_timers (s : State) :
  heartbeatTimer (stopHeartbeat s) = None /\
  reconnectTimer (stopHeartbeat s) = reconnectTimer s /\
  (forall x, pending x s = false -> pending x (stopHeartbeat s) = false) /\
  (forall h, heartbeatTimer s = Some h -> pending h (stopHeartbeat s) = false).
Proof.
  unfold stopHeartbeat. destruct (heartbeatTimer s) as [h|] eqn:Hh.
  - split; [done|]. split; [done|]. split.
    + intros x Hx. exact (pending_clearTimer_other h x s Hx).
    + intros h' Hh'. injection Hh' as <-. exact (clearTimer_not_pending h s).
  - split; [done|]. split; [done|]. split; [done|]. intros h' Hh'. discriminate.
Qed.

(** What [disconnect] does to the timers at the time of the call: both
    handles are [null] afterwards and the timers they named are no longer
    pending. *)
Lemma disconnect_clears_timers (s : State) :
  reconnectTimer (disconnect s) = None /\ heartbeatTimer (disconnect s) = None /\
  (forall r, reconnectTimer s = Some r -> pending r (disconnect s) = false) /\
  (forall h, heartbeatTimer s = Some h -> pending h (disconnect s) = false).
Proof.
  set (s1 := match reconnectTimer s with
             | Some r => set_reconnectTimer None (clearTimer r s)
             | None => s
             end).
  assert (H1 : reconnectTimer s1 = None /\ heartbeatTimer s1 = heartbeatTimer s /\
               (forall r, reconnectTimer s = Some r -> pending r s1 = false) /\
               (forall x, pending x s = false -> pending x s1 = false)).
  { subst s1. destruct (reconnectTimer s) as [r|] eqn:Hr.
    - split; [done|]. split; [done|]. split.
      + intros r' Hr'. injection Hr' as <-. exact (clearTimer_not_pending r s).
      + intros x Hx. exact (pending_clearTimer_other r x s Hx).
    - split; [done|]. split; [done|]. split; [intros; discriminate|done]. }
  destruct H1 as (Hr1 & Hh1 & Hpr1 & Hp1).
  destruct (stopHeartbeat_timers s1) as (Hh2 & Hr2 & Hp2 & Hph2).
  assert (Hview : timer_view (disconnect s) = timer_view (stopHeartbeat s1)).
  { unfold disconnect. fold s1. unfold update_conn, update_socket.
    destruct (ws (stopHeartbeat s1)); simpl;
      match goal with |- context [match connection ?x with _ => _ end] => destruct (connection x) end;
      reflexivity. }
  assert (Hr : reconnectTimer (disconnect s) = reconnectTimer (stopHeartbeat s1))
    by (unfold timer_view in Hview; congruence).
  assert (Hh : heartbeatTimer (disconnect s) = heartbeatTimer (stopHeartbeat s1))
    by (unfold timer_view in Hview; congruence).
  split; [congruence|]. split; [congruence|]. split.
  - intros r Hr0. rewrite (timer_view_pending _ _ r Hview). apply Hp2, Hpr1. done.
  - intros h Hh0. rewrite (timer_view_pending _ _ h Hview). apply Hph2. congruence.
Qed.

(** ** Client-side [withRetry]: supporting lemmas *)

Section ClientRetryLemmas.
Context {R : Type}.
Variable fn : nat -> Retry.Outcome R.
Variable config : ClientRetry.RetryConfig.

Lemma client_retry_loop_shape :
  forall fuel a last,
    1 <= a -> a + fuel = S (ClientRetry.maxAttempts config) ->
    let '(res, sleeps, calls) := ClientRetry.retry_loop fn config fuel a last in
    calls <= fuel /\ (1 <= fuel -> 1 <= calls) /\
    sleeps = map (ClientRetry.retry_delay config) (seq a (calls - 1)).
Proof.
  induction fuel as [|fuel IH]; intros a last Ha Hfuel; simpl; [repeat split; lia|].
  destruct (fn a) as [r|e]; [repeat split; lia|].
  destruct (Nat.eqb_spec a (ClientRetry.maxAttempts config)) as [Heq|Hne]; [repeat split; lia|].
  specialize (IH (S a) (Some e) ltac:(lia) ltac:(lia)).
  destruct (ClientRetry.retry_loop fn config fuel (S a) (Some e)) as [[res sleeps] calls].
  destruct IH as (Hc & Hpos & ->). split; [lia|]. split; [lia|].
  assert (Hc1 : 1 <= calls) by (apply Hpos; lia).
  destruct calls as [|calls]; [lia|]. simpl. rewrite Nat.sub_0_r. done.
Qed.

Lemma client_retry_loop_all_fail (errs : nat -> Retry.Error) :
  (forall i, fn i = Retry.Err (errs i)) ->
  forall fuel a last,
    1 <= a -> 1 <= fuel -> a + fuel = S (ClientRetry.maxAttempts config) ->
    ClientRetry.retry_loop fn config fuel a last
      = (Retry.Thrown (Some (errs (ClientRetry.maxAttempts config))),
         map (ClientRetry.retry_delay config) (seq a (fuel - 1)), fuel).
Proof.
  intros Herr. induction fuel as [|fuel IH]; intros a last Ha Hf Hfuel; [lia|]. simpl.
  rewrite Herr.
  destruct (Nat.eqb_spec a (ClientRetry.maxAttempts config)) as [Heq|Hne].
  - assert (fuel = 0) by lia. subst fuel. rewrite Heq. done.
  - rewrite (IH (S a) (Some (errs a))) by lia.
    destruct fuel as [|fuel]; [lia|]. simpl. rewrite Nat.sub_0_r. done.
Qed.
End ClientRetryLemmas.

(** ** Transport: claims *)

(** C4 fails on the code: [retryCount] does not count reconnect attempts.
    After the unsolicited close the count is 1; the reconnect's own
    [establishConnection] installs a new connection object with count 0
    (no [Connected] transition in between), so after that reconnect fails
    the count is 1 again rather than 2. *)
Theorem retryCount_restarts_at_each_reconnect :
  map (fun n => option_map conn_view (run test_config init (firstn n close_then_failed_reconnect)))
      [2; 3; 4; 7]
  = [Some (Some (Connected, 0)); Some (Some (Reconnecting, 1));
     Some (Some (Connecting, 0)); Some (Some (Reconnecting, 1))].
Proof. vm_compute. reflexivity. Qed.

(** C5 fails on the code. With the plugin's [reconnectAttempts = 1], the
    count reaches 1 at the first close; yet once that reconnect has failed a
    second reconnect is armed without ["maxRetriesReached"]; and after
    ["maxRetriesReached"] is emitted, a reconnect is still pending and, when
    it fires, opens a new socket. *)
Theorem reconnect_continues_after_max_retries :
  option_map (fun s => (conn_view s, gave_up s)) (run plugin_config init (firstn 3 failing_reconnects))
    = Some (Some (Reconnecting, 1), false) /\
  option_map (fun s => (conn_view s, gave_up s, reconnect_pending s))
    (run plugin_config init (firstn 7 failing_reconnects))
    = Some (Some (Reconnecting, 1), false, true) /\
  option_map (fun s => (gave_up s, option_map t_cb (next_timer s)))
    (run plugin_config init failing_reconnects) = Some (true, Some ReconnectCb) /\
  option_map (fun s => (ws s, conn_view s))
    (run plugin_config init (failing_reconnects ++ [EvFire 9]))
    = Some (Some 11, Some (Connecting, 0)).
Proof. vm_compute. repeat split. Qed.




(** C9 fails on the code. [disconnect] clears both timer handles (see
    [disconnect_clears_timers]), but the closed socket keeps its [onclose]
    handler: the close event that [ws.close()] produces runs
    [handleReconnection], which arms a new reconnect timer, and when it fires
    a new socket is opened for the torn-down session. *)
Theorem disconnect_then_close_event_reconnects :
  option_map timer_view (run test_config init (firstn 3 disconnect_then_close))
    = Some (None, None, []) /\
  option_map (fun s => (reconnectTimer s, reconnect_pending s, conn_view s))
    (run test_config init disconnect_then_close)
    = Some (Some 2, true, Some (Reconnecting, 1)) /\
  option_map (fun s => (ws s, conn_view s))
    (run test_config init (disconnect_then_close ++ [EvFire 2]))
    = Some (Some 3, Some (Connecting, 0)).
Proof. vm_compute. repeat split. Qed.

(* ===================================================================== *)
(** * Properties beyond the specification *)

(** ** Keyed registries: [Map.prototype.set] and [Map.prototype.get] *)

Lemma assoc_lookup_map_set_eq {V} (k : string) (v : V) (m : list (string * V)) :
  assoc_lookup k (map_set k v m) = Some v.
Proof.
  induction m as [|[k' v'] m IH]; simpl.
  - rewrite String.eqb_refl. done.
  - destruct (String.eqb_spec k k') as [->|Hne]; simpl.
    + rewrite String.eqb_refl. done.
    + apply String.eqb_neq in Hne. rewrite Hne. done.
Qed.

Lemma assoc_lookup_map_set_ne {V} (k k' : string) (v : V) (m : list (string * V)) :
  k' <> k -> assoc_lookup k' (map_set k v m) = assoc_lookup k' m.
Proof.
  intros Hne. induction m as [|[k0 v0] m IH]; simpl.
  - apply String.eqb_neq in Hne. rewrite Hne. done.
  - destruct (String.eqb_spec k k0) as [->|Hne0]; simpl.
    + apply String.eqb_neq in Hne. rewrite Hne. done.
    + rewrite IH. done.
Qed.

Lemma map_set_Forall {V} (P : string * V -> Prop) (k : string) (v : V) (m : list (string * V)) :
  Forall P m -> P (k, v) -> Forall P (map_set k v m).
Proof.
  intros Hm Hkv. induction Hm as [|[k' v'] m Hx Hm IH]; simpl.
  - constructor; [done|constructor].
  - destruct (String.eqb k k'); constructor; done.
Qed.

Lemma decide_level_cases (hs : gmap string bool) :
  decide_level hs = full_level \/ decide_level hs = limited_level \/ decide_level hs = offline_level.
Proof.
  unfold decide_level.
  destruct (truthy hs "redis"), (truthy hs "websocket"), (truthy hs "aiAgent"); simpl; auto.
Qed.

Lemma assessSystemHealth_inv (s s' : Service) (t : nat) (lvl : DegradationLevel) :
  assessSystemHealth s t = Some (s', lvl) ->
  exists hs, checkAllServices s t = Some hs /\ lvl = decide_level hs /\ currentLevel s' = lvl.
Proof.
  unfold assessSystemHealth. destruct (checkAllServices s t) as [hs|]; [|discriminate].
  intros H. injection H as <- <-. exists hs. done.
Qed.

(** ** Degradation *)

(** [registerHealthCheck] under a name already registered replaces that
    probe in place: the registry then yields the new probe for the name,
    every other name keeps its probe, and the order of the names (the order
    in which [checkAllServices] runs the probes) is unchanged; a new name is
    appended at the end. *)
Theorem registerHealthCheck_replaces_in_place (s : Service) (name : string) (p : Probe) :
  assoc_lookup name (healthChecks (registerHealthCheck s name p)) = Some p /\
  (forall n, n <> name ->
     assoc_lookup n (healthChecks (registerHealthCheck s name p)) = assoc_lookup n (healthChecks s)) /\
  map fst (healthChecks (registerHealthCheck s name p)) =
    (if decide (name ∈ map fst (healthChecks s)) then map fst (healthChecks s)
     else (map fst (healthChecks s) ++ [name])%list).
Proof.
  simpl. split; [apply assoc_lookup_map_set_eq|]. split.
  - intros n Hn. apply assoc_lookup_map_set_ne. done.
  - destruct (decide (name ∈ map fst (healthChecks s))).
    + apply map_set_fst_in. done.
    + apply map_set_fst_notin. done.
Qed.

(** The decision table is monotone: a health map in which every name that
    was healthy stays healthy never yields a worse level. *)
Theorem decide_level_monotone (hs hs' : gmap string bool) :
  (forall n, truthy hs n = true -> truthy hs' n = true) ->
  level_rank (level (decide_level hs)) <= level_rank (level (decide_level hs')).
Proof.
  intros H. pose proof (H "redis") as Hr. pose proof (H "websocket") as Hw.
  pose proof (H "aiAgent") as Ha. unfold decide_level.
  destruct (truthy hs "redis"), (truthy hs "websocket"), (truthy hs "aiAgent"),
    (truthy hs' "redis"), (truthy hs' "websocket"), (truthy hs' "aiAgent");
    simpl; try lia; exfalso;
    first [ specialize (Hr eq_refl) | specialize (Hw eq_refl) | specialize (Ha eq_refl) ];
    discriminate.
Qed.

Lemma decide_level_monotone_witness :
  (forall n, truthy (<["websocket" := true]> (<["redis" := true]> (∅ : gmap string bool))) n = true ->
     truthy (<["aiAgent" := true]> (<["websocket" := true]> (<["redis" := true]> (∅ : gmap string bool)))) n = true) /\
  level_rank (level (decide_level (<["websocket" := true]> (<["redis" := true]> (∅ : gmap string bool))))) <=
  level_rank (level (decide_level (<["aiAgent" := true]> (<["websocket" := true]> (<["redis" := true]> (∅ : gmap string bool)))))).
Proof.
  assert (H : forall n, truthy (<["websocket" := true]> (<["redis" := true]> (∅ : gmap string bool))) n = true ->
     truthy (<["aiAgent" := true]> (<["websocket" := true]> (<["redis" := true]> (∅ : gmap string bool)))) n = true).
  { intros n Hn. unfold truthy in *. destruct (decide (n = "aiAgent")) as [->|Hne].
    - rewrite lookup_insert_eq. done.
    - rewrite lookup_insert_ne by congruence. done. }
  split; [exact H|]. exact (decide_level_monotone _ _ H).
Defined.

(** A service with no probe registered under ["redis"] (for instance a
    misspelt name) assesses to Offline whatever its other probes report. *)
Theorem assessSystemHealth_without_redis_probe (s s' : Service) (t : nat) (lvl : DegradationLevel) :
  "redis" ∉ map fst (healthChecks s) ->
  assessSystemHealth s t = Some (s', lvl) ->
  lvl = offline_level /\ getCurrentLevel s' = offline_level.
Proof.
  intros Hn H. destruct (assessSystemHealth_inv s s' t lvl H) as (hs & Hc & -> & Hcur).
  assert (Hr : hs !! "redis" = None).
  { destruct (hs !! "redis") eqn:E; [|done]. exfalso.
    destruct (check_loop_keys _ _ _ _ Hc "redis") as [H'|H']; [congruence| |done].
    rewrite lookup_empty in H'. done. }
  assert (Ht : truthy hs "redis" = false) by (unfold truthy; rewrite Hr; done).
  unfold decide_level in *. rewrite Ht in *. simpl in *. done.
Qed.

Lemma assessSystemHealth_without_redis_probe_witness :
  ("redis" ∉ map fst (healthChecks all_healthy_but_redis_misnamed)) /\
  assessSystemHealth all_healthy_but_redis_misnamed 0
    = Some (mkService offline_level (healthChecks all_healthy_but_redis_misnamed), offline_level) /\
  offline_level = offline_level /\
  getCurrentLevel (mkService offline_level (healthChecks all_healthy_but_redis_misnamed)) = offline_level.
Proof.
  assert (Hn : "redis" ∉ map fst (healthChecks all_healthy_but_redis_misnamed))
    by (simpl; set_solver).
  assert (Ha : assessSystemHealth all_healthy_but_redis_misnamed 0
    = Some (mkService offline_level (healthChecks all_healthy_but_redis_misnamed), offline_level))
    by reflexivity.
  split; [exact Hn|]. split; [exact Ha|].
  exact (assessSystemHealth_without_redis_probe _ _ 0 _ Hn Ha).
Defined.

(** After an assessment, [canUseFeature] follows the level: the real-time
    features ([websocket], [ai-agent], [real-time]) are usable exactly at
    Full, [session-storage] exactly when not Offline, [message-queue]
    exactly at Limited and [static-content] exactly at Offline. *)
Theorem canUseFeature_after_assessment (s s' : Service) (t : nat) (lvl : DegradationLevel) :
  assessSystemHealth s t = Some (s', lvl) ->
  (canUseFeature s' "websocket" = true <-> level lvl = Lfull) /\
  (canUseFeature s' "ai-agent" = true <-> level lvl = Lfull) /\
  (canUseFeature s' "real-time" = true <-> level lvl = Lfull) /\
  (canUseFeature s' "session-storage" = true <-> level lvl <> Loffline) /\
  (canUseFeature s' "message-queue" = true <-> level lvl = Llimited) /\
  (canUseFeature s' "static-content" = true <-> level lvl = Loffline).
Proof.
  intros H. destruct (assessSystemHealth_inv s s' t lvl H) as (hs & _ & -> & Hcur).
  unfold canUseFeature. rewrite Hcur.
  destruct (decide_level_cases hs) as [E|[E|E]]; rewrite E; vm_compute;
    repeat split; try done; try discriminate; intros HH; exfalso; apply HH; done.
Qed.

Lemma canUseFeature_after_assessment_witness :
  assessSystemHealth one_probe_throws 0
    = Some (mkService offline_level (healthChecks one_probe_throws), offline_level) /\
  (canUseFeature (mkService offline_level (healthChecks one_probe_throws)) "websocket" = true <-> level offline_level = Lfull) /\
  (canUseFeature (mkService offline_level (healthChecks one_probe_throws)) "ai-agent" = true <-> level offline_level = Lfull) /\
  (canUseFeature (mkService offline_level (healthChecks one_probe_throws)) "real-time" = true <-> level offline_level = Lfull) /\
  (canUseFeature (mkService offline_level (healthChecks one_probe_throws)) "session-storage" = true <-> level offline_level <> Loffline) /\
  (canUseFeature (mkService offline_level (healthChecks one_probe_throws)) "message-queue" = true <-> level offline_level = Llimited) /\
  (canUseFeature (mkService offline_level (healthChecks one_probe_throws)) "static-content" = true <-> level offline_level = Loffline).
Proof.
  assert (Ha : assessSystemHealth one_probe_throws 0
    = Some (mkService offline_level (healthChecks one_probe_throws), offline_level)) by reflexivity.
  split; [exact Ha|]. exact (canUseFeature_after_assessment _ _ 0 _ Ha).
Defined.

(** After an assessment, [getFallbackAction] follows the level for
    [sendMessage] and [getMessages]: nothing at Full, "queue for later" and
    "cached messages" at Limited, the offline message for both at Offline.
    The name of an [Object.prototype] member yields that inherited member at
    every level, Full included; any other name yields nothing. *)
Theorem getFallbackAction_after_assessment (s s' : Service) (t : nat) (lvl : DegradationLevel)
    (action : string) :
  assessSystemHealth s t = Some (s', lvl) ->
  (level lvl = Lfull ->
     getFallbackAction s' "sendMessage" = None /\ getFallbackAction s' "getMessages" = None) /\
  (level lvl = Llimited ->
     getFallbackAction s' "sendMessage" = Some QueueMessageForLater /\
     getFallbackAction s' "getMessages" = Some GetCachedMessages) /\
  (level lvl = Loffline ->
     getFallbackAction s' "sendMessage" = Some ShowOfflineMessage /\
     getFallbackAction s' "getMessages" = Some ShowOfflineMessage) /\
  (action ∈ object_prototype_keys -> getFallbackAction s' action = Some (Inherited action)) /\
  (action ∉ "sendMessage" :: "getMessages" :: object_prototype_keys ->
     getFallbackAction s' action = None).
Proof.
  intros H. destruct (assessSystemHealth_inv s s' t lvl H) as (hs & _ & -> & Hcur).
  unfold getFallbackAction. rewrite Hcur.
  split; [|split; [|split; [|split]]].
  1-3: destruct (decide_level_cases hs) as [E|[E|E]]; rewrite E; simpl; intros HL;
       try discriminate; split; reflexivity.
  - intros Hin.
    assert (Hs : String.eqb action "sendMessage" = false).
    { apply String.eqb_neq. intros ->. apply list_elem_of_In in Hin. simpl in Hin.
      intuition discriminate. }
    assert (Hg : String.eqb action "getMessages" = false).
    { apply String.eqb_neq. intros ->. apply list_elem_of_In in Hin. simpl in Hin.
      intuition discriminate. }
    assert (Hb : existsb (String.eqb action) object_prototype_keys = true).
    { apply existsb_exists. exists action.
      split; [apply list_elem_of_In; done | apply String.eqb_refl]. }
    destruct (decide_level_cases hs) as [E|[E|E]]; rewrite E;
      cbn [fallbackActions full_level limited_level offline_level assoc_lookup];
      rewrite ?Hs, ?Hg, Hb; done.
  - intros Hn.
    assert (Hs : String.eqb action "sendMessage" = false).
    { apply String.eqb_neq. intros ->. apply Hn. left. }
    assert (Hg : String.eqb action "getMessages" = false).
    { apply String.eqb_neq. intros ->. apply Hn. right. left. }
    assert (Hb : existsb (String.eqb action) object_prototype_keys = false).
    { apply not_true_iff_false. intros Hb. apply existsb_exists in Hb as (x & Hx & Hex).
      apply String.eqb_eq in Hex. subst x. apply Hn. right. right.
      apply list_elem_of_In. done. }
    destruct (decide_level_cases hs) as [E|[E|E]]; rewrite E;
      cbn [fallbackActions full_level limited_level offline_level assoc_lookup];
      rewrite ?Hs, ?Hg, Hb; done.
Qed.

Lemma getFallbackAction_after_assessment_witness :
  assessSystemHealth all_healthy 0
    = Some (mkService full_level (healthChecks all_healthy), full_level) /\
  getFallbackAction (mkService full_level (healthChecks all_healthy)) "sendMessage" = None /\
  getFallbackAction (mkService full_level (healthChecks all_healthy)) "toString"
    = Some (Inherited "toString").
Proof.
  assert (Ha : assessSystemHealth all_healthy 0
    = Some (mkService full_level (healthChecks all_healthy), full_level)) by reflexivity.
  destruct (getFallbackAction_after_assessment _ _ 0 _ "toString" Ha) as (Hfull & _ & _ & Hproto & _).
  split; [exact Ha|]. split; [exact (proj1 (Hfull eq_refl))|].
  apply Hproto. apply list_elem_of_In. simpl. tauto.
Defined.

(** ** Circuit breaker registry *)

Import Breakers.

(** [createBreaker] registers the breaker it returns under [config.name]:
    [getBreaker] then yields it, the breaker wraps the given function, and
    the breakers of every other name are untouched (one created earlier
    under the same name is replaced). *)
Theorem createBreaker_registers (fn : nat) (config : CircuitBreakerConfig) (s : BreakerService) :
  let '(b, s') := createBreaker fn config s in
  getBreaker s' (cb_name config) = Some b /\
  br_fn b = fn /\
  (forall n, n <> cb_name config -> getBreaker s' n = getBreaker s n).
Proof.
  unfold createBreaker, getBreaker. simpl.
  rewrite assoc_lookup_map_set_eq. split; [done|]. split; [done|].
  intros n Hn. apply assoc_lookup_map_set_ne. done.
Qed.

(** ** Client-side [withRetry] *)


(** The client [withRetry] does not tag errors: when every call fails, it
    calls the operation [maxAttempts] times, sleeps
    [min(baseDelay * backoffMultiplier^(i-1), maxDelay)] after the [i]-th
    failure for [i < maxAttempts], and throws the last call's error as it
    is. With [maxAttempts = 0] it calls nothing and throws [undefined]. *)
Theorem client_withRetry_rethrows_last_error {R : Type} (fn : nat -> Retry.Outcome R)
    (config : ClientRetry.RetryConfig) (errs : nat -> Retry.Error) :
  (forall i, fn i = Retry.Err (errs i)) ->
  (1 <= ClientRetry.maxAttempts config ->
     ClientRetry.withRetry fn config
       = (Retry.Thrown (Some (errs (ClientRetry.maxAttempts config))),
          map (ClientRetry.retry_delay config) (seq 1 (ClientRetry.maxAttempts config - 1)),
          ClientRetry.maxAttempts config)) /\
  (ClientRetry.maxAttempts config = 0 ->
     ClientRetry.withRetry fn config = (Retry.Thrown None, [], 0)).
Proof.
  intros Herr. split.
  - intros Hm. unfold ClientRetry.withRetry.
    apply client_retry_loop_all_fail; [done|lia|lia|lia].
  - intros Hm. unfold ClientRetry.withRetry. rewrite Hm. done.
Qed.

Lemma client_withRetry_rethrows_last_error_witness :
  (forall i, (fun _ : nat => @Retry.Err nat (Retry.plain_error "ECONNREFUSED")) i
             = Retry.Err ((fun _ : nat => Retry.plain_error "ECONNREFUSED") i)) /\
  ClientRetry.withRetry (fun _ : nat => @Retry.Err nat (Retry.plain_error "ECONNREFUSED"))
    ClientRetry.websocket_config
    = (Retry.Thrown (Some (Retry.plain_error "ECONNREFUSED")), [1000; 2000], 3) /\
  (1 <= ClientRetry.maxAttempts ClientRetry.websocket_config ->
     ClientRetry.withRetry (fun _ : nat => @Retry.Err nat (Retry.plain_error "ECONNREFUSED"))
       ClientRetry.websocket_config
       = (Retry.Thrown (Some ((fun _ : nat => Retry.plain_error "ECONNREFUSED") (ClientRetry.maxAttempts ClientRetry.websocket_config))),
          map (ClientRetry.retry_delay ClientRetry.websocket_config)
            (seq 1 (ClientRetry.maxAttempts ClientRetry.websocket_config - 1)),
          ClientRetry.maxAttempts ClientRetry.websocket_config)) /\
  (ClientRetry.maxAttempts ClientRetry.websocket_config = 0 ->
     ClientRetry.withRetry (fun _ : nat => @Retry.Err nat (Retry.plain_error "ECONNREFUSED"))
       ClientRetry.websocket_config = (Retry.Thrown None, [], 0)).
Proof.
  assert (H : forall i, (fun _ : nat => @Retry.Err nat (Retry.plain_error "ECONNREFUSED")) i
             = Retry.Err ((fun _ : nat => Retry.plain_error "ECONNREFUSED") i)) by reflexivity.
  split; [exact H|]. split; [vm_compute; reflexivity|].
  exact (client_withRetry_rethrows_last_error _ ClientRetry.websocket_config _ H).
Defined.

(** Whatever the operation does, the client [withRetry] calls it at most
    [maxAttempts] times and sleeps once between two calls, the [i]-th sleep
    lasting [min(baseDelay * backoffMultiplier^(i-1), maxDelay)]: no sleep
    exceeds [maxDelay], and with a multiplier of at least 1 the sleeps never
    shrink. *)
Theorem client_withRetry_sleeps {R : Type} (fn : nat -> Retry.Outcome R)
    (config : ClientRetry.RetryConfig) :
  let '(res, sleeps, calls) := ClientRetry.withRetry fn config in
  calls <= ClientRetry.maxAttempts config /\
  sleeps = map (ClientRetry.retry_delay config) (seq 1 (calls - 1)) /\
  Forall (fun d => d <= ClientRetry.maxDelay config) sleeps /\
  (1 <= ClientRetry.backoffMultiplier config ->
     forall a, ClientRetry.retry_delay config a <= ClientRetry.retry_delay config (S a)).
Proof.
  pose proof (client_retry_loop_shape fn config (ClientRetry.maxAttempts config) 1 None
                ltac:(lia) ltac:(lia)) as Hs.
  unfold ClientRetry.withRetry.
  destruct (ClientRetry.retry_loop fn config (ClientRetry.maxAttempts config) 1 None)
    as [[res sleeps] calls].
  destruct Hs as (Hc & _ & ->). split; [done|]. split; [done|]. split.
  - apply Forall_forall. intros d Hd. apply list_elem_of_In, in_map_iff in Hd as (a & <- & _).
    unfold ClientRetry.retry_delay. lia.
  - intros Hm a. unfold ClientRetry.retry_delay. apply Nat.min_le_compat_r.
    apply Nat.mul_le_mono_l. apply Nat.pow_le_mono_r; lia.
Qed.

(** ** Health checks of the resilience plugin *)

Import Health.

Lemma run_health_unavailable (h : HealthCheckService) (ops : list HealthOp) :
  redis h = None ->
  redis (fst (run_health h ops)) = None /\ Forall (fun b => b = false) (snd (run_health h ops)).
Proof.
  revert h. induction ops as [|[p|e] ops IH]; intros h Hh; simpl.
  - split; [done|constructor].
  - unfold checkRedis. rewrite Hh.
    destruct (IH h Hh) as [H1 H2].
    destruct (run_health h ops) as [h2 bs]. simpl in *. split; [done|constructor; done].
  - apply IH. destruct e; simpl; [rewrite Hh|..]; done.
Qed.

(** Once [checkRedis] has seen the ping of an open client fail (rejected,
    or no reply within 3 s), it has set [this.redis = null]: every later
    [checkRedis] returns false, whatever the client does afterwards, and
    the Redis probe never reports healthy again. *)
Theorem checkRedis_failure_is_permanent (h : HealthCheckService) (c : RedisClient)
    (p : PingOutcome) (ops : list HealthOp) :
  redis h = Some c -> isOpen c = true -> p <> PingReplies ->
  redis (fst (run_health h (OpCheckRedis p :: ops))) = None /\
  Forall (fun b => b = false) (snd (run_health h (OpCheckRedis p :: ops))).
Proof.
  intros Hh Ho Hp. simpl. unfold checkRedis. rewrite Hh, Ho. simpl.
  assert (Hc : match p with
               | PingReplies => (h, true)
               | PingRejects | PingTimesOut => (mkHealthCheckService None, false)
               end = (mkHealthCheckService None, false)) by (destruct p; done).
  rewrite Hc.
  destruct (run_health_unavailable (mkHealthCheckService None) ops eq_refl) as [H1 H2].
  destruct (run_health (mkHealthCheckService None) ops) as [h2 bs]. simpl in *.
  split; [done|constructor; done].
Qed.

Lemma checkRedis_failure_is_permanent_witness :
  redis (on_redis_event RedisOpened (new_health_check_service (Some "redis://localhost:6379")))
    = Some (mkRedisClient true) /\
  isOpen (mkRedisClient true) = true /\ PingTimesOut <> PingReplies /\
  redis (fst (run_health (on_redis_event RedisOpened (new_health_check_service (Some "redis://localhost:6379")))
                 [OpCheckRedis PingTimesOut; OpRedisEvent RedisOpened; OpCheckRedis PingReplies])) = None /\
  Forall (fun b => b = false)
    (snd (run_health (on_redis_event RedisOpened (new_health_check_service (Some "redis://localhost:6379")))
            [OpCheckRedis PingTimesOut; OpRedisEvent RedisOpened; OpCheckRedis PingReplies])).
Proof.
  assert (H1 : redis (on_redis_event RedisOpened (new_health_check_service (Some "redis://localhost:6379")))
    = Some (mkRedisClient true)) by reflexivity.
  assert (H2 : isOpen (mkRedisClient true) = true) by reflexivity.
  assert (H3 : PingTimesOut <> PingReplies) by discriminate.
  split; [exact H1|]. split; [exact H2|]. split; [exact H3|].
  exact (checkRedis_failure_is_permanent _ _ PingTimesOut [OpRedisEvent RedisOpened; OpCheckRedis PingReplies] H1 H2 H3).
Defined.

(** Without a [REDIS_URL] (unset or empty) the service holds no client and
    [checkRedis] returns false at every call, whatever happens. *)
Theorem checkRedis_unconfigured (url : option string) (ops : list HealthOp) :
  url = None \/ url = Some "" ->
  redis (new_health_check_service url) = None /\
  Forall (fun b => b = false) (snd (run_health (new_health_check_service url) ops)).
Proof.
  intros Hu. assert (Hn : redis (new_health_check_service url) = None)
    by (destruct Hu as [->| ->]; done).
  split; [done|]. apply run_health_unavailable. done.
Qed.

Lemma checkRedis_unconfigured_witness :
  (Some "" = None \/ Some "" = Some "") /\
  redis (new_health_check_service (Some "")) = None /\
  Forall (fun b => b = false)
    (snd (run_health (new_health_check_service (Some "")) [OpRedisEvent RedisOpened; OpCheckRedis PingReplies])).
Proof.
  assert (H : Some "" = None \/ Some "" = Some "") by (right; reflexivity).
  split; [exact H|]. exact (checkRedis_unconfigured _ _ H).
Defined.

Import WebSocket.

Lemma checkAIAgent_cases (s : State) :
  (exists w c, ws s = Some w /\ connection s = Some c /\ is_connected (status c) = true /\
     checkAIAgent (Some s)
       = (Some (match ws_send w (QueryFrame "ping") s with Some s' => s' | None => emit EmError s end),
          true)) \/
  ((ws s = None \/ checkWebSocket (Some s) = false) /\ checkAIAgent (Some s) = (Some s, false)).
Proof.
  unfold checkAIAgent, checkWebSocket, sendMessage.
  destruct (ws s) as [w|]; destruct (connection s) as [c|]; simpl;
    try (right; split; [auto|reflexivity]).
  destruct (is_connected (status c)) eqn:Hc.
  - left. exists w, c. destruct (ws_send w (QueryFrame "ping") s); done.
  - right. auto.
Qed.

(** [checkAIAgent] on a live transport is no probe of the agent: it
    returns true exactly when the service holds a socket and the connection
    says [connected], and otherwise returns false having done nothing. When
    that socket is open it sends the agent a real ["ping"] query; when it
    is still CONNECTING, [ws.send] throws, the service reports an ['error']
    event, nothing is sent, and the check still returns true. *)
Theorem checkAIAgent_sends_ping_query (s : State) :
  (snd (checkAIAgent (Some s)) = true <-> ws s <> None /\ checkWebSocket (Some s) = true) /\
  (snd (checkAIAgent (Some s)) = false -> fst (checkAIAgent (Some s)) = Some s) /\
  (forall w k, ws s = Some w -> checkWebSocket (Some s) = true -> find_socket w (sockets s) = Some k ->
     (sock_phase k = POpen ->
        fst (checkAIAgent (Some s)) = Some (send_frame (w, QueryFrame "ping") s)) /\
     (sock_phase k = PConnecting ->
        fst (checkAIAgent (Some s)) = Some (emit EmError s) /\ sent (emit EmError s) = sent s)).
Proof.
  destruct (checkAIAgent_cases s) as [(w & c & Hw & Hc & Hst & E)|([Hw|Hcw] & E)];
    rewrite E; cbn [fst snd].
  - assert (Hcw : checkWebSocket (Some s) = true) by (simpl; rewrite Hc; done).
    split; [split; [intros _; split; [congruence|done]|done]|].
    split; [discriminate|].
    intros w' k Hw' _ Hk. rewrite Hw in Hw'. injection Hw' as <-.
    unfold ws_send. rewrite Hk. split; intros Hp; rewrite Hp; [done|split; done].
  - split; [split; [discriminate|intros [H _]; done]|]. split; [done|].
    intros w' k Hw'. congruence.
  - split; [split; [discriminate|intros [_ H]; congruence]|]. split; [done|].
    intros w' k _ Hc'. congruence.
Qed.

(** A second [connect] while the first socket opens: the check returns
    true, sends nothing and reports an ['error'] event. *)
Lemma checkAIAgent_sends_ping_query_witness :
  fst (checkAIAgent (Some (state_after test_config reconnect_while_opening)))
    = Some (emit EmError (state_after test_config reconnect_while_opening)) /\
  snd (checkAIAgent (Some (state_after test_config reconnect_while_opening))) = true /\
  sent (state_after test_config reconnect_while_opening) = [].
Proof.
  assert (Hw : ws (state_after test_config reconnect_while_opening) = Some 1)
    by (vm_compute; reflexivity).
  assert (Hc : checkWebSocket (Some (state_after test_config reconnect_while_opening)) = true)
    by (vm_compute; reflexivity).
  assert (Hk : find_socket 1 (sockets (state_after test_config reconnect_while_opening))
                 = Some (mkSocket 1 "session-1" "user-1" 1 false PConnecting))
    by (vm_compute; reflexivity).
  destruct (checkAIAgent_sends_ping_query (state_after test_config reconnect_while_opening))
    as (Hiff & _ & Hsock).
  destruct (Hsock 1 _ Hw Hc Hk) as [_ Hconn].
  split; [exact (proj1 (Hconn eq_refl))|]. split.
  - apply Hiff. split; [rewrite Hw; discriminate|exact Hc].
  - vm_compute. reflexivity.
Defined.

(** The resilience plugin builds its [HealthCheckService] on the
    unassigned [server.app.wsService]: [getSystemHealth] then reports
    ['degraded'] whatever Redis reports, with the transport and the agent
    unhealthy. *)
Theorem getSystemHealth_report (p : PingOutcome) (h : HealthCheckService) :
  getSystemHealth p h plugin_wsService
    = (fst (checkRedis p h), None, mkSystemHealth Degraded (snd (checkRedis p h)) false false).
Proof.
  unfold getSystemHealth. destruct (checkRedis p h) as [h1 r]. simpl.
  destruct r; reflexivity.
Qed.

(** With the probes the resilience plugin registers, every assessment
    completes and yields Offline: the transport and agent probes both read
    the unassigned [server.app.wsService] and report false, so the level
    is Offline whatever Redis reports. *)
Theorem plugin_assessment_levels (p : PingOutcome) (h : HealthCheckService) (t : nat) :
  checkAllServices (plugin_service p h) t
    = Some (<["aiAgent" := false]> (<["websocket" := false]>
              (<["redis" := snd (checkRedis p h)]> (∅ : gmap string bool)))) /\
  assessSystemHealth (plugin_service p h) t
    = Some (mkService offline_level (healthChecks (plugin_service p h)), offline_level).
Proof.
  unfold plugin_service, assessSystemHealth, checkAllServices.
  destruct (snd (checkRedis p h)); split; reflexivity.
Qed.

(** ** Transport: invariants and further behaviour *)

Lemma attempts_ok_spec (s : State) :
  attempts_ok s = true <->
  (forall t, In t (timers s) -> timer_attempt_ok t = true) /\
  (forall k, In k (sockets s) -> socket_attempt_ok k = true).
Proof. unfold attempts_ok. rewrite andb_true_iff, !forallb_forall. done. Qed.

Lemma inv_emit (e : Emitted) (s : State) : attempts_ok (emit e s) = attempts_ok s.
Proof. reflexivity. Qed.

Lemma inv_set_ws (w : option nat) (s : State) : attempts_ok (set_ws w s) = attempts_ok s.
Proof. reflexivity. Qed.

Lemma inv_set_reconnectTimer (r : option nat) (s : State) :
  attempts_ok (set_reconnectTimer r s) = attempts_ok s.
Proof. reflexivity. Qed.

Lemma inv_set_heartbeatTimer (h : option nat) (s : State) :
  attempts_ok (set_heartbeatTimer h s) = attempts_ok s.
Proof. reflexivity. Qed.

Lemma inv_update_conn (f : Connection -> Connection) (s : State) :
  attempts_ok (update_conn f s) = attempts_ok s.
Proof. unfold update_conn. destruct (connection s); done. Qed.

Lemma inv_update_socket (id : nat) (g : Socket -> Socket) (s : State) :
  (forall k, sock_attempt (g k) = sock_attempt k) ->
  attempts_ok (update_socket id g s) = attempts_ok s.
Proof.
  intros Hg. unfold attempts_ok, update_socket. simpl. f_equal.
  induction (sockets s) as [|k ks IH]; simpl; [done|]. rewrite IH.
  destruct (Nat.eqb (sock_id k) id); [|done]. unfold socket_attempt_ok. rewrite Hg. done.
Qed.

Lemma inv_setTimeout (cb : TimerCb) (d : nat) (s : State) :
  timer_attempt_ok (mkTimer 0 cb 0 None) = true ->
  attempts_ok s = true -> attempts_ok (snd (setTimeout cb d s)) = true.
Proof.
  rewrite !attempts_ok_spec. intros Hcb [Ht Hk]. unfold setTimeout, fresh. simpl.
  split; [|done]. intros t Hin. apply in_app_or in Hin as [Hin|[<-|[]]]; [auto|]. exact Hcb.
Qed.

Lemma inv_clearTimer (id : nat) (s : State) :
  attempts_ok s = true -> attempts_ok (clearTimer id s) = true.
Proof.
  rewrite !attempts_ok_spec. intros [Ht Hk]. unfold clearTimer. simpl.
  split; [|done]. intros t Hin. apply filter_In in Hin as [Hin _]. auto.
Qed.

Lemma inv_remove_socket (id : nat) (s : State) :
  attempts_ok s = true -> attempts_ok (remove_socket id s) = true.
Proof.
  rewrite !attempts_ok_spec. intros [Ht Hk]. unfold remove_socket. simpl.
  split; [done|]. intros k Hin. apply filter_In in Hin as [Hin _]. auto.
Qed.

Lemma inv_establishConnection (sid uid : string) (a : nat) (s : State) :
  1 <= a <= 3 -> attempts_ok s = true -> attempts_ok (establishConnection sid uid a s) = true.
Proof.
  intros Ha. rewrite !attempts_ok_spec. intros [Ht Hk]. unfold establishConnection, fresh. simpl.
  split; [done|]. intros k Hin. apply in_app_or in Hin as [Hin|[<-|[]]]; [auto|].
  unfold socket_attempt_ok. cbn [sock_attempt]. apply andb_true_iff. split; apply Nat.leb_le; lia.
Qed.

Lemma inv_startHeartbeat (config : WebSocketConfig) (s : State) :
  attempts_ok s = true -> attempts_ok (startHeartbeat config s) = true.
Proof.
  rewrite !attempts_ok_spec. intros [Ht Hk]. unfold startHeartbeat, setInterval, fresh. simpl.
  split; [|done]. intros t Hin. apply in_app_or in Hin as [Hin|[<-|[]]]; [auto|done].
Qed.

Lemma inv_stopHeartbeat (s : State) :
  attempts_ok s = true -> attempts_ok (stopHeartbeat s) = true.
Proof.
  intros H. unfold stopHeartbeat. destruct (heartbeatTimer s) as [h|]; [|done].
  rewrite inv_set_heartbeatTimer. apply inv_clearTimer. done.
Qed.

Lemma inv_handleReconnection (config : WebSocketConfig) (s : State) :
  attempts_ok s = true -> attempts_ok (handleReconnection config s) = true.
Proof.
  intros H. unfold handleReconnection. destruct (connection s) as [c|]; [|done].
  destruct (Nat.leb (reconnectAttempts config) (retryCount c)); [done|].
  match goal with |- context [setTimeout ?cb ?d ?x] =>
    pose proof (inv_setTimeout cb d x eq_refl H) as Hs; destruct (setTimeout cb d x) as [r s2] end.
  done.
Qed.

Lemma inv_onopen (config : WebSocketConfig) (k : Socket) (s : State) :
  attempts_ok s = true -> attempts_ok (onopen config k s) = true.
Proof.
  intros H. unfold onopen. cbv zeta.
  rewrite inv_update_socket, inv_emit by done. apply inv_startHeartbeat.
  rewrite inv_update_conn, inv_update_socket by done. done.
Qed.

Lemma inv_onerror (k : Socket) (s : State) :
  socket_attempt_ok k = true -> attempts_ok s = true -> attempts_ok (onerror k s) = true.
Proof.
  intros Hk H. unfold onerror. cbv zeta.
  assert (H3 : attempts_ok (emit EmError (update_conn (with_status ErrorSt)
                 (update_socket (sock_id k) (with_phase PFailed) s))) = true)
    by (rewrite inv_emit, inv_update_conn, inv_update_socket by done; done).
  destruct (sock_settled k); [done|].
  assert (H4 : attempts_ok (update_socket (sock_id k) settled (emit EmError (update_conn (with_status ErrorSt)
                 (update_socket (sock_id k) (with_phase PFailed) s)))) = true)
    by (rewrite inv_update_socket by done; done).
  destruct (Nat.eqb_spec (sock_attempt k) backoff_maxAttempts) as [E|E]; [done|].
  apply inv_setTimeout; [|done].
  unfold socket_attempt_ok in Hk. apply andb_true_iff in Hk as [H1 H2].
  apply Nat.leb_le in H1, H2. unfold backoff_maxAttempts in E.
  unfold timer_attempt_ok. cbn [t_cb]. apply andb_true_iff. split; apply Nat.leb_le; lia.
Qed.

Lemma inv_onclose (config : WebSocketConfig) (k : Socket) (s : State) :
  attempts_ok s = true -> attempts_ok (onclose config k s) = true.
Proof.
  intros H. unfold onclose. cbv zeta. apply inv_handleReconnection.
  rewrite inv_emit.
  apply inv_stopHeartbeat. rewrite inv_update_conn. apply inv_remove_socket. done.
Qed.

Lemma inv_rearm_or_drop (tm : Timer) (s : State) :
  attempts_ok s = true -> attempts_ok (rearm_or_drop tm s) = true.
Proof.
  intros H. unfold rearm_or_drop. destruct (t_period tm) as [p|]; [|apply inv_clearTimer; done].
  apply attempts_ok_spec in H as [Ht Hk]. apply attempts_ok_spec. simpl. split; [|done].
  intros t Hin. apply in_map_iff in Hin as (t0 & <- & Hin).
  destruct (Nat.eqb (t_id t0) (t_id tm)); [|auto]. apply Ht in Hin. done.
Qed.

Lemma inv_ws_send_result (w : nat) (f : Frame) (s : State) :
  attempts_ok (match ws_send w f s with Some s' => s' | None => s end) = attempts_ok s.
Proof.
  unfold ws_send. destruct (find_socket w (sockets s)) as [k|]; [destruct (sock_phase k)|];
    reflexivity.
Qed.

Lemma inv_sendMessage (content : string) (s : State) :
  attempts_ok (fst (sendMessage content s)) = attempts_ok s.
Proof.
  unfold sendMessage. destruct (ws s) as [w|], (connection s) as [c|]; try reflexivity.
  destruct (is_connected (status c)); [|reflexivity].
  unfold ws_send. destruct (find_socket w (sockets s)) as [k|]; [destruct (sock_phase k)|];
    reflexivity.
Qed.

Lemma inv_run_callback (cb : TimerCb) (s : State) :
  timer_attempt_ok (mkTimer 0 cb 0 None) = true ->
  attempts_ok s = true -> attempts_ok (run_callback cb s) = true.
Proof.
  intros Hcb H. destruct cb as [| |sid uid a]; simpl.
  - destruct (connection s); [|done]. apply inv_establishConnection; [lia|done].
  - destruct (ws s) as [w|], (connection s); try done.
    destruct (is_connected (status c)); [rewrite inv_ws_send_result|]; done.
  - unfold timer_attempt_ok in Hcb. cbn [t_cb] in Hcb. apply andb_true_iff in Hcb as [H1 H2].
    apply Nat.leb_le in H1, H2. apply inv_establishConnection; [lia|done].
Qed.

Lemma inv_disconnect (s : State) :
  attempts_ok s = true -> attempts_ok (disconnect s) = true.
Proof.
  intros H. unfold disconnect. cbv zeta. rewrite inv_update_conn.
  assert (H1 : attempts_ok (match reconnectTimer s with
                            | Some r => set_reconnectTimer None (clearTimer r s)
                            | None => s end) = true).
  { destruct (reconnectTimer s); [|done].
    rewrite inv_set_reconnectTimer. apply inv_clearTimer. done. }
  apply inv_stopHeartbeat in H1.
  match goal with |- context [ws ?x] => destruct (ws x) end; [|done].
  rewrite inv_set_ws, inv_update_socket by done. done.
Qed.

Lemma find_socket_in (w : nat) (ks : list Socket) (k : Socket) :
  find_socket w ks = Some k -> In k ks.
Proof.
  induction ks as [|k' ks IH]; simpl; [discriminate|].
  destruct (Nat.eqb (sock_id k') w); [intros [= <-]; left; done|intros; right; auto].
Qed.

Lemma next_timer_in (s : State) (tm : Timer) : next_timer s = Some tm -> In tm (timers s).
Proof.
  unfold next_timer. destruct (earliest_due s); [|discriminate]. apply List.find_some.
Qed.

Lemma inv_step (config : WebSocketConfig) (s s' : State) (ev : Event) :
  attempts_ok s = true -> step config s ev = Some s' -> attempts_ok s' = true.
Proof.
  intros H Hst. pose proof (proj1 (attempts_ok_spec s) H) as [_ Hk].
  destruct ev as [sid uid|w|w|w|d|t| |content]; simpl in Hst.
  - injection Hst as <-. apply inv_establishConnection; [lia|done].
  - destruct (find_socket w (sockets s)) as [k|]; [|discriminate].
    destruct (sock_phase k); try discriminate. injection Hst as <-. apply inv_onopen. done.
  - destruct (find_socket w (sockets s)) as [k|] eqn:Ef; [|discriminate].
    apply find_socket_in, Hk in Ef.
    destruct (sock_phase k); try discriminate; injection Hst as <-; apply inv_onerror; done.
  - destruct (find_socket w (sockets s)) as [k|]; [|discriminate].
    injection Hst as <-. apply inv_onclose. done.
  - destruct (earliest_due s); [destruct (Nat.leb (now s + d) n); [|discriminate]|];
      injection Hst as <-; done.
  - destruct (next_timer s) as [tm|] eqn:En; [|discriminate].
    destruct (Nat.eqb (t_id tm) t); [|discriminate]. injection Hst as <-.
    apply next_timer_in in En. pose proof (proj1 (proj1 (attempts_ok_spec s) H) tm En) as Htm.
    apply inv_run_callback.
    + destruct tm. exact Htm.
    + apply inv_rearm_or_drop. done.
  - injection Hst as <-. apply inv_disconnect. done.
  - injection Hst as <-. change (attempts_ok (fst (sendMessage content s)) = true).
    rewrite inv_sendMessage. done.
Qed.

(** Every reachable state of the transport keeps the retry loop of
    [connect] within its three attempts: each live socket was created by
    attempt 1, 2 or 3, and each pending backoff sleep resumes attempt 2 or
    3; no fourth [establishConnection] is ever scheduled by one [connect]. *)
Theorem connect_attempts_stay_within_three (config : WebSocketConfig) (evs : list Event) (s : State) :
  run config init evs = Some s ->
  attempts_ok s = true /\
  (forall t sid uid a, In t (timers s) -> t_cb t = BackoffCb sid uid a -> 2 <= a <= 3) /\
  (forall k, In k (sockets s) -> 1 <= sock_attempt k <= 3).
Proof.
  assert (Hrun : forall s0 evs s, attempts_ok s0 = true -> run config s0 evs = Some s -> attempts_ok s = true).
  { intros s0 evs0. revert s0. induction evs0 as [|ev evs0 IH]; intros s0 s1 H0 Hr; simpl in Hr.
    - injection Hr as <-. done.
    - destruct (step config s0 ev) as [s'|] eqn:Est; [|discriminate].
      apply (IH s'); [|done]. apply (inv_step config s0 s' ev); done. }
  intros Hr. pose proof (Hrun init evs s eq_refl Hr) as H. split; [done|].
  apply attempts_ok_spec in H as [Ht Hk]. split.
  - intros t sid uid a Hin Hcb. specialize (Ht t Hin). unfold timer_attempt_ok in Ht.
    rewrite Hcb in Ht. apply andb_true_iff in Ht as [H1 H2]. apply Nat.leb_le in H1, H2. lia.
  - intros k Hin. specialize (Hk k Hin). unfold socket_attempt_ok in Hk.
    apply andb_true_iff in Hk as [H1 H2]. apply Nat.leb_le in H1, H2. lia.
Qed.

Lemma connect_attempts_stay_within_three_witness :
  run plugin_config init failing_reconnects <> None /\
  exists s, run plugin_config init failing_reconnects = Some s /\
    attempts_ok s = true /\
    (forall t sid uid a, In t (timers s) -> t_cb t = BackoffCb sid uid a -> 2 <= a <= 3) /\
    (forall k, In k (sockets s) -> 1 <= sock_attempt k <= 3).
Proof.
  split; [vm_compute; discriminate|].
  destruct (run plugin_config init failing_reconnects) as [s|] eqn:E; [|vm_compute in E; discriminate].
  exists s. split; [reflexivity|].
  exact (connect_attempts_stay_within_three plugin_config failing_reconnects s E).
Defined.

Lemma pending_clearTimer_ne (id x : nat) (s : State) :
  x <> id -> pending x (clearTimer id s) = pending x s.
Proof.
  intros Hne. unfold pending, clearTimer. simpl.
  induction (timers s) as [|t ts IH]; simpl; [done|].
  destruct (Nat.eqb_spec (t_id t) id) as [E1|E1]; simpl;
    destruct (Nat.eqb_spec (t_id t) x) as [E2|E2]; simpl; try done; lia.
Qed.

(** [onopen] starts a heartbeat without stopping the one that runs: when a
    socket opens while a heartbeat interval is active (a second [connect]
    before any close), the old interval stays pending, the handle now names
    the new one, and [stopHeartbeat] can no longer cancel the old one. *)
Theorem onopen_leaks_running_heartbeat (config : WebSocketConfig) (k : Socket) (s : State) (h : nat) :
  heartbeatTimer s = Some h -> pending h s = true -> h < next_id s ->
  heartbeatTimer (onopen config k s) = Some (next_id s) /\
  pending h (onopen config k s) = true /\
  pending h (stopHeartbeat (onopen config k s)) = true.
Proof.
  intros Hh Hp Hlt.
  assert (Ho : heartbeatTimer (onopen config k s) = Some (next_id s) /\
               timers (onopen config k s) =
                 (timers s ++ [mkTimer (next_id s) HeartbeatCb (now s + heartbeatInterval config)
                                 (Some (heartbeatInterval config))])%list).
  { unfold onopen, startHeartbeat, setInterval, fresh, update_conn.
    simpl. destruct (connection s); simpl; done. }
  destruct Ho as [Ho1 Ho2].
  assert (Hp1 : pending h (onopen config k s) = true).
  { unfold pending in *. rewrite Ho2, existsb_app, Hp. done. }
  split; [done|]. split; [done|].
  unfold stopHeartbeat. rewrite Ho1. simpl.
  change (pending h (clearTimer (next_id s) (onopen config k s)) = true).
  rewrite pending_clearTimer_ne by lia. done.
Qed.

Lemma onopen_leaks_running_heartbeat_witness :
  let s := match run test_config init [EvConnect "session-1" "user-1"; EvOpen 0; EvConnect "session-1" "user-1"]
           with Some s => s | None => init end in
  let k := mkSocket 2 "session-1" "user-1" 1 false PConnecting in
  heartbeatTimer s = Some 1 /\ pending 1 s = true /\ 1 < next_id s /\
  heartbeatTimer (onopen test_config k s) = Some (next_id s) /\
  pending 1 (onopen test_config k s) = true /\
  pending 1 (stopHeartbeat (onopen test_config k s)) = true.
Proof.
  intros s k.
  assert (H1 : heartbeatTimer s = Some 1) by (vm_compute; reflexivity).
  assert (H2 : pending 1 s = true) by (vm_compute; reflexivity).
  assert (H3 : 1 < next_id s) by (vm_compute; lia).
  split; [exact H1|]. split; [exact H2|]. split; [exact H3|].
  exact (onopen_leaks_running_heartbeat test_config k s 1 H1 H2 H3).
Defined.

Lemma disconnect_settled_state (s : State) :
  reconnectTimer s = None -> heartbeatTimer s = None -> ws s = None ->
  (forall c, connection s = Some c -> status c = Disconnected) ->
  disconnect s = s.
Proof.
  intros Hr Hh Hw Hc. unfold disconnect, stopHeartbeat, update_conn. cbv zeta.
  rewrite Hr, Hh, Hw. destruct (connection s) as [c|] eqn:E; [|done].
  specialize (Hc c eq_refl). destruct c as [sid uid st n]. simpl in Hc. subst st.
  destruct s. simpl in *. subst. reflexivity.
Qed.

Lemma update_conn_fields (f : Connection -> Connection) (x : State) :
  ws (update_conn f x) = ws x /\ connection (update_conn f x) = option_map f (connection x).
Proof. unfold update_conn. destruct (connection x) eqn:E; split; simpl; rewrite ?E; reflexivity. Qed.

(** [disconnect] is idempotent: a second call finds nothing to clear or
    close and leaves the state as the first call left it. *)
Theorem disconnect_idempotent (s : State) : disconnect (disconnect s) = disconnect s.
Proof.
  destruct (disconnect_clears_timers s) as (Hr & Hh & _ & _).
  apply disconnect_settled_state; [done|done| |].
  - unfold disconnect. cbv zeta. rewrite (proj1 (update_conn_fields _ _)).
    match goal with |- context [match ws ?x with _ => _ end] => destruct (ws x) eqn:E end; done.
  - intros c. unfold disconnect. cbv zeta. rewrite (proj2 (update_conn_fields _ _)).
    match goal with |- context [option_map _ (connection ?x)] => destruct (connection x) end;
      simpl; [intros [= <-]; done|discriminate].
Qed.

(** ** Client resilience manager *)

Import Manager.

Lemma sendMessage_connected (content : string) (s : State) (w : nat) :
  ws s = Some w -> status_connected s = true ->
  WebSocket.sendMessage content s
    = (match ws_send w (QueryFrame content) s with Some s' => s' | None => emit EmError s end, None).
Proof.
  intros Hw Hc. unfold WebSocket.sendMessage, status_connected in *. rewrite Hw.
  destruct (connection s) as [c|]; [|discriminate]. rewrite Hc.
  destruct (ws_send w (QueryFrame content) s); reflexivity.
Qed.

Lemma sendMessage_not_connected (content : string) (s : State) :
  ws s = None \/ status_connected s = false ->
  WebSocket.sendMessage content s = (s, Some webSocketNotConnectedError).
Proof.
  intros H. unfold WebSocket.sendMessage, status_connected in *.
  destruct (ws s), (connection s) as [c|]; try reflexivity.
  destruct H as [H|H]; [discriminate|]. rewrite H. reflexivity.
Qed.

Lemma ws_send_view (w : nat) (f : Frame) (s : State) :
  let s1 := match ws_send w f s with Some s' => s' | None => emit EmError s end in
  ws s1 = ws s /\ connection s1 = connection s /\ timers s1 = timers s /\ sockets s1 = sockets s.
Proof.
  unfold ws_send. destruct (find_socket w (sockets s)) as [k|]; [destruct (sock_phase k)|];
    repeat split.
Qed.

(** [ResilienceManager.sendMessage] queues a message exactly when the
    service has no socket or no [connected] connection, and then sends
    nothing. Otherwise it never queues it: with an open socket it sends it
    as a query; with a socket still CONNECTING, [ws.send] throws, the
    service catches it and emits ['error'], and the message is lost; with a
    closing or closed socket it is discarded silently. *)
Theorem mgr_sendMessage_sends_or_queues (content : string) (m : Manager) (s : State) :
  (ws s = None \/ status_connected s = false ->
     mgr_sendMessage content m s = (queueMessage content m, s)) /\
  (forall w, ws s = Some w -> status_connected s = true ->
     fst (mgr_sendMessage content m s) = m /\
     (forall k, find_socket w (sockets s) = Some k ->
        (sock_phase k = POpen -> snd (mgr_sendMessage content m s) = send_frame (w, QueryFrame content) s) /\
        (sock_phase k = PConnecting -> snd (mgr_sendMessage content m s) = emit EmError s) /\
        (sock_phase k = PFailed \/ sock_phase k = PClosing -> snd (mgr_sendMessage content m s) = s)) /\
     (find_socket w (sockets s) = None -> snd (mgr_sendMessage content m s) = s)).
Proof.
  unfold mgr_sendMessage. split.
  - intros H. rewrite (sendMessage_not_connected content s H).
    destruct (status_connected s); reflexivity.
  - intros w Hw Hc. rewrite Hc, (sendMessage_connected content s w Hw Hc). cbn [fst snd].
    split; [reflexivity|]. unfold ws_send. split.
    + intros k Hk. rewrite Hk. split; [|split]; intros Hp;
        [rewrite Hp; reflexivity | rewrite Hp; reflexivity | destruct Hp as [Hp|Hp]; rewrite Hp; reflexivity].
    + intros Hk. rewrite Hk. reflexivity.
Qed.

(** A second [connect] while the first socket opens: the message is
    neither sent nor queued. *)
Lemma mgr_sendMessage_sends_or_queues_witness :
  fst (mgr_sendMessage "hello" (new_manager true) (state_after test_config reconnect_while_opening))
    = new_manager true /\
  snd (mgr_sendMessage "hello" (new_manager true) (state_after test_config reconnect_while_opening))
    = emit EmError (state_after test_config reconnect_while_opening) /\
  sent (state_after test_config reconnect_while_opening) = [].
Proof.
  assert (Hw : ws (state_after test_config reconnect_while_opening) = Some 1)
    by (vm_compute; reflexivity).
  assert (Hc : status_connected (state_after test_config reconnect_while_opening) = true)
    by (vm_compute; reflexivity).
  assert (Hk : find_socket 1 (sockets (state_after test_config reconnect_while_opening))
                 = Some (mkSocket 1 "session-1" "user-1" 1 false PConnecting))
    by (vm_compute; reflexivity).
  destruct (proj2 (mgr_sendMessage_sends_or_queues "hello" (new_manager true)
                     (state_after test_config reconnect_while_opening)) 1 Hw Hc) as (Hm & Hsock & _).
  split; [exact Hm|]. split; [exact (proj1 (proj2 (Hsock _ Hk)) eq_refl)|].
  vm_compute. reflexivity.
Defined.

Lemma send_queued_connected (w : nat) (msgs q : list string) (s : State) :
  ws s = Some w -> status_connected s = true ->
  exists s', send_queued msgs q s = (q, s') /\
    ws s' = ws s /\ connection s' = connection s /\ timers s' = timers s /\ sockets s' = sockets s.
Proof.
  revert s. induction msgs as [|x msgs IH]; intros s Hw Hc; cbn [send_queued].
  - exists s. repeat split.
  - rewrite (sendMessage_connected x s w Hw Hc).
    destruct (ws_send_view w (QueryFrame x) s) as (E1 & E2 & E3 & E4).
    set (s1 := match ws_send w (QueryFrame x) s with Some s' => s' | None => emit EmError s end) in *.
    destruct (IH s1) as (s' & Hrun & F1 & F2 & F3 & F4).
    + congruence.
    + unfold status_connected in *. rewrite E2. done.
    + exists s'. cbn beta iota. rewrite Hrun. repeat split; congruence.
Qed.

Lemma send_queued_open (w : nat) (k : Socket) (msgs q : list string) (s : State) :
  ws s = Some w -> status_connected s = true -> find_socket w (sockets s) = Some k ->
  sock_phase k = POpen ->
  send_queued msgs q s =
    (q, mkState (now s) (ws s) (connection s) (reconnectTimer s) (heartbeatTimer s) (timers s)
          (sockets s) (next_id s) (emitted s) (sent s ++ map (fun c => (w, QueryFrame c)) msgs)%list).
Proof.
  revert s. induction msgs as [|x msgs IH]; intros s Hw Hc Hk Hp; cbn [send_queued].
  - rewrite app_nil_r. destruct s; done.
  - rewrite (sendMessage_connected x s w Hw Hc). unfold ws_send at 1. rewrite Hk, Hp.
    cbn beta iota. rewrite IH by done. simpl. rewrite <- app_assoc. done.
Qed.

Lemma send_queued_connecting (w : nat) (k : Socket) (msgs q : list string) (s : State) :
  ws s = Some w -> status_connected s = true -> find_socket w (sockets s) = Some k ->
  sock_phase k = PConnecting ->
  send_queued msgs q s =
    (q, mkState (now s) (ws s) (connection s) (reconnectTimer s) (heartbeatTimer s) (timers s)
          (sockets s) (next_id s) (emitted s ++ repeat EmError (List.length msgs)) (sent s))%list.
Proof.
  revert s. induction msgs as [|x msgs IH]; intros s Hw Hc Hk Hp; cbn [send_queued].
  - rewrite app_nil_r. destruct s; done.
  - rewrite (sendMessage_connected x s w Hw Hc). unfold ws_send at 1. rewrite Hk, Hp.
    cbn beta iota. rewrite IH by done. simpl. rewrite <- app_assoc. done.
Qed.

Lemma send_queued_not_connected (msgs q : list string) (s : State) :
  ws s = None \/ status_connected s = false ->
  send_queued msgs q s = ((q ++ msgs)%list, s).
Proof.
  intros H. revert q. induction msgs as [|x msgs IH]; intros q; cbn [send_queued].
  - rewrite app_nil_r. done.
  - rewrite (sendMessage_not_connected x s H), IH, <- app_assoc. done.
Qed.

Lemma processQueuedMessages_counters (m : Manager) (s : State) :
  isOnline (fst (processQueuedMessages m s)) = isOnline m /\
  retryAttempts (fst (processQueuedMessages m s)) = retryAttempts m /\
  reconnects (fst (processQueuedMessages m s)) = reconnects m.
Proof.
  unfold processQueuedMessages. destruct (messageQueue m); [repeat split|].
  destruct (negb (status_connected s)); [repeat split|].
  destruct (send_queued _ [] s) as [q s']. repeat split.
Qed.

(** [processQueuedMessages] with a socket and a [connected] connection
    empties the queue whether or not the messages can be sent: with an open
    socket it sends them all, in queue order, as queries on that socket;
    with a socket still CONNECTING it sends none, each one producing an
    ['error'] event, and the whole queue is lost. Without a socket or a
    [connected] connection it changes nothing. *)
Theorem processQueuedMessages_all_or_nothing (m : Manager) (s : State) :
  (ws s = None \/ status_connected s = false -> processQueuedMessages m s = (m, s)) /\
  (forall w, ws s = Some w -> status_connected s = true ->
     let '(m', s') := processQueuedMessages m s in
     messageQueue m' = [] /\ isOnline m' = isOnline m /\ retryAttempts m' = retryAttempts m /\
     reconnects m' = reconnects m /\
     connection s' = connection s /\ ws s' = ws s /\ timers s' = timers s /\
     (forall k, find_socket w (sockets s) = Some k ->
        (sock_phase k = POpen ->
           sent s' = (sent s ++ map (fun c => (w, QueryFrame c)) (messageQueue m))%list /\
           emitted s' = emitted s) /\
        (sock_phase k = PConnecting ->
           sent s' = sent s /\
           emitted s' = (emitted s ++ repeat EmError (List.length (messageQueue m)))%list))).
Proof.
  unfold processQueuedMessages. split.
  - intros H. destruct (messageQueue m) as [|x xs] eqn:Hq; [reflexivity|].
    destruct (status_connected s) eqn:Hc; cbn beta iota; [|reflexivity].
    destruct H as [H|H]; [|discriminate].
    rewrite (send_queued_not_connected (x :: xs) [] s (or_introl H)). cbn beta iota.
    destruct m; simpl in *; subst; reflexivity.
  - intros w Hw Hc. rewrite Hc. destruct (messageQueue m) as [|x xs] eqn:Hq; cbn beta iota.
    + rewrite Hq. do 7 (split; [reflexivity|]). intros k0 _.
      split; intros _; simpl; rewrite ?app_nil_r; split; reflexivity.
    + destruct (send_queued_connected w (x :: xs) [] s Hw Hc) as (s' & Hrun & F1 & F2 & F3 & F4).
      rewrite Hrun. cbn beta iota.
      do 4 (split; [reflexivity|]). do 3 (split; [assumption|]).
      intros k0 Hk. split; intros Hp.
      * rewrite (send_queued_open w k0 (x :: xs) [] s Hw Hc Hk Hp) in Hrun.
        injection Hrun as <-. split; reflexivity.
      * rewrite (send_queued_connecting w k0 (x :: xs) [] s Hw Hc Hk Hp) in Hrun.
        injection Hrun as <-. split; reflexivity.
Qed.

(** Two queued messages and a second [connect] while the first socket
    opens: both are dropped from the queue, none is sent, and two
    ['error'] events follow. *)
Lemma processQueuedMessages_all_or_nothing_witness :
  messageQueue (fst (processQueuedMessages (mkManager ["a"; "b"] true 0 [])
                       (state_after test_config reconnect_while_opening))) = [] /\
  sent (snd (processQueuedMessages (mkManager ["a"; "b"] true 0 [])
               (state_after test_config reconnect_while_opening))) = [] /\
  emitted (snd (processQueuedMessages (mkManager ["a"; "b"] true 0 [])
                  (state_after test_config reconnect_while_opening))) = [EmConnected; EmError; EmError].
Proof.
  assert (Hw : ws (state_after test_config reconnect_while_opening) = Some 1)
    by (vm_compute; reflexivity).
  assert (Hc : status_connected (state_after test_config reconnect_while_opening) = true)
    by (vm_compute; reflexivity).
  assert (Hk : find_socket 1 (sockets (state_after test_config reconnect_while_opening))
                 = Some (mkSocket 1 "session-1" "user-1" 1 false PConnecting))
    by (vm_compute; reflexivity).
  pose proof (proj2 (processQueuedMessages_all_or_nothing (mkManager ["a"; "b"] true 0 [])
                       (state_after test_config reconnect_while_opening)) 1 Hw Hc) as H.
  destruct (processQueuedMessages (mkManager ["a"; "b"] true 0 [])
              (state_after test_config reconnect_while_opening)) as [m' s'].
  cbn [fst snd]. destruct H as (Hq & _ & _ & _ & _ & _ & _ & Hsock).
  destruct (proj2 (Hsock _ Hk) eq_refl) as [Hs He].
  split; [exact Hq|]. split; [rewrite Hs; vm_compute; reflexivity|].
  rewrite He. vm_compute. reflexivity.
Defined.

Lemma mgr_delay_bound (a : nat) : a < 5 -> Nat.min (1000 * 2 ^ a) 30000 <= 1000 * 16.
Proof.
  intros Ha. etransitivity; [apply Nat.le_min_l|]. apply Nat.mul_le_mono_l.
  change 16 with (2 ^ 4). apply Nat.pow_le_mono_r; lia.
Qed.

Lemma mgr_step_bound (config : WebSocketConfig) (m m' : Manager) (s s' : State) (ev : MgrEvent) :
  retryAttempts m <= 5 -> Forall (fun d => d <= 1000 * 16) (reconnects m) ->
  mgr_step config (m, s) ev = Some (m', s') ->
  retryAttempts m' <= 5 /\ Forall (fun d => d <= 1000 * 16) (reconnects m').
Proof.
  intros Ha Hd Hst.
  assert (Hpq : forall m0 s0, let '(m1, _) := processQueuedMessages m0 s0 in
                  retryAttempts m1 = retryAttempts m0 /\ reconnects m1 = reconnects m0).
  { intros m0 s0. pose proof (processQueuedMessages_counters m0 s0) as Hp.
    destruct (processQueuedMessages m0 s0). simpl in Hp. tauto. }
  assert (Hsch : Nat.ltb (retryAttempts m) maxRetryAttempts = true ->
                 retryAttempts (scheduleReconnect m) <= 5 /\
                 Forall (fun d => d <= 1000 * 16) (reconnects (scheduleReconnect m))).
  { intros Hlt. apply Nat.ltb_lt in Hlt. unfold maxRetryAttempts in Hlt. simpl.
    split; [lia|]. apply Forall_app. split; [done|]. constructor; [|constructor].
    apply mgr_delay_bound. done. }
  destruct ev; simpl in Hst.
  - unfold handleOnline in Hst. specialize (Hpq (mkManager (messageQueue m) true 0 (reconnects m)) s).
    destruct (processQueuedMessages _ _). injection Hst as <- <-. simpl in Hpq.
    destruct Hpq as [-> ->]. split; [lia|done].
  - injection Hst as <- <-. done.
  - unfold handleConnected in Hst. specialize (Hpq (mkManager (messageQueue m) (isOnline m) 0 (reconnects m)) s).
    destruct (processQueuedMessages _ _). injection Hst as <- <-. simpl in Hpq.
    destruct Hpq as [-> ->]. split; [lia|done].
  - injection Hst as <- <-. unfold handleDisconnected.
    destruct (isOnline m); simpl; [|done].
    destruct (Nat.ltb (retryAttempts m) maxRetryAttempts) eqn:E; [apply Hsch; done|done].
  - injection Hst as <- <-. unfold handleError.
    destruct (Nat.ltb (retryAttempts m) maxRetryAttempts) eqn:E; [apply Hsch; done|done].
  - unfold mgr_sendMessage in Hst.
    destruct (status_connected s); [destruct (WebSocket.sendMessage content s) as [s1 [e|]]|];
      injection Hst as <- <-; done.
  - destruct (step config s e); [|discriminate]. injection Hst as <- <-. done.
Qed.

Lemma mgr_run_bound (config : WebSocketConfig) (evs : list MgrEvent) :
  forall m0 s0 m s, retryAttempts m0 <= 5 ->
  Forall (fun d => d <= 1000 * 16) (reconnects m0) ->
  mgr_run config (m0, s0) evs = Some (m, s) ->
  retryAttempts m <= 5 /\ Forall (fun d => d <= 1000 * 16) (reconnects m).
Proof.
  induction evs as [|ev evs IH]; intros m0 s0 m s Ha Hd Hr; cbn [mgr_run] in Hr.
  - injection Hr as <- <-. done.
  - destruct (mgr_step config (m0, s0) ev) as [[m' s']|] eqn:Est; [|discriminate].
    destruct (mgr_step_bound config m0 m' s0 s' ev Ha Hd Est).
    apply (IH m' s' m s); done.
Qed.

(** The delay cap of [scheduleReconnect] is never reached: from a new
    manager, whatever happens (network changes, transport events and
    steps, sends), [retryAttempts] never exceeds [maxRetryAttempts] and
    every scheduled reconnect waits at most [1000 * 2^4] ms, well below
    the 30 s cap in the code. *)
Theorem manager_reconnect_delays_below_cap (config : WebSocketConfig) (online : bool)
    (s0 : State) (evs : list MgrEvent) (m : Manager) (s : State) :
  mgr_run config (new_manager online, s0) evs = Some (m, s) ->
  retryAttempts m <= maxRetryAttempts /\ Forall (fun d => d <= 1000 * 16) (reconnects m).
Proof.
  intros Hr. apply (mgr_run_bound config evs (new_manager online) s0 m s); [simpl; lia|constructor|done].
Qed.

Lemma manager_reconnect_delays_below_cap_witness :
  exists m s,
    mgr_run test_config (new_manager true, init)
      [MDisconnected; MError; MError; MError; MError; MError; MDisconnected] = Some (m, s) /\
    retryAttempts m <= maxRetryAttempts /\ Forall (fun d => d <= 1000 * 16) (reconnects m).
Proof.
  destruct (mgr_run test_config (new_manager true, init)
              [MDisconnected; MError; MError; MError; MError; MError; MDisconnected]) as [[m s]|] eqn:E;
    [|vm_compute in E; discriminate].
  exists m, s. split; [reflexivity|].
  exact (manager_reconnect_delays_below_cap test_config true init _ m s E).
Defined.

Lemma mgr_step_no_reset (config : WebSocketConfig) (m m' : Manager) (s s' : State) (ev : MgrEvent) :
  no_reset ev = true -> mgr_step config (m, s) ev = Some (m', s') ->
  List.length (reconnects m') + retryAttempts m = List.length (reconnects m) + retryAttempts m' /\
  retryAttempts m' <= Nat.max maxRetryAttempts (retryAttempts m).
Proof.
  intros Hn Hst.
  assert (Hsch : forall b, (if b && Nat.ltb (retryAttempts m) maxRetryAttempts
                            then scheduleReconnect m else m) = m' ->
            List.length (reconnects m') + retryAttempts m = List.length (reconnects m) + retryAttempts m' /\
            retryAttempts m' <= Nat.max maxRetryAttempts (retryAttempts m)).
  { intros b <-. destruct b; simpl; [|lia].
    destruct (Nat.ltb_spec (retryAttempts m) maxRetryAttempts); simpl; [|lia].
    rewrite length_app. simpl. lia. }
  destruct ev; simpl in Hn; try discriminate; simpl in Hst.
  - injection Hst as <- <-. simpl. lia.
  - injection Hst as <- <-. apply (Hsch (isOnline m)). reflexivity.
  - injection Hst as <- <-. apply (Hsch true). reflexivity.
  - unfold mgr_sendMessage in Hst.
    destruct (status_connected s); [destruct (WebSocket.sendMessage content s) as [s1 [e|]]|];
      injection Hst as <- <-; simpl; lia.
  - destruct (step config s e); [|discriminate]. injection Hst as <- <-. lia.
Qed.

Lemma mgr_run_no_reset (config : WebSocketConfig) (evs : list MgrEvent) :
  forall m s m' s', forallb no_reset evs = true -> mgr_run config (m, s) evs = Some (m', s') ->
  List.length (reconnects m') + retryAttempts m = List.length (reconnects m) + retryAttempts m' /\
  retryAttempts m' <= Nat.max maxRetryAttempts (retryAttempts m).
Proof.
  induction evs as [|ev evs IH]; intros m s m' s' Hn Hr; cbn [mgr_run] in Hr.
  - injection Hr as <- <-. lia.
  - simpl in Hn. apply andb_true_iff in Hn as [Hev Hn].
    destruct (mgr_step config (m, s) ev) as [[m1 s1]|] eqn:Est; [|discriminate].
    destruct (mgr_step_no_reset config m m1 s s1 ev Hev Est) as [H1 H2].
    destruct (IH m1 s1 m' s' Hn Hr) as [H3 H4]. unfold maxRetryAttempts in *. lia.
Qed.

(** Without an [online] or [connected] event in between (the only two
    that reset [retryAttempts]), the manager schedules at most
    [maxRetryAttempts - retryAttempts] reconnects, however many
    [disconnected] and [error] events arrive. *)
Theorem manager_schedules_at_most_remaining (config : WebSocketConfig) (evs : list MgrEvent)
    (m : Manager) (s : State) (m' : Manager) (s' : State) :
  forallb no_reset evs = true -> mgr_run config (m, s) evs = Some (m', s') ->
  List.length (reconnects m') <= List.length (reconnects m) + (maxRetryAttempts - retryAttempts m).
Proof.
  intros Hn Hr. destruct (mgr_run_no_reset config evs m s m' s' Hn Hr) as [H1 H2].
  unfold maxRetryAttempts in *. lia.
Qed.

Lemma manager_schedules_at_most_remaining_witness :
  exists m' s',
    mgr_run test_config (new_manager true, init)
      [MDisconnected; MError; MError; MError; MError; MError; MDisconnected] = Some (m', s') /\
    List.length (reconnects m') = 5 /\
    List.length (reconnects m') <= List.length (reconnects (new_manager true)) +
                                   (maxRetryAttempts - retryAttempts (new_manager true)).
Proof.
  destruct (mgr_run test_config (new_manager true, init)
              [MDisconnected; MError; MError; MError; MError; MError; MDisconnected]) as [[m s]|] eqn:E;
    [|vm_compute in E; discriminate].
  exists m, s. split; [reflexivity|]. split; [vm_compute in E; injection E as <- _; reflexivity|].
  exact (manager_schedules_at_most_remaining test_config
           [MDisconnected; MError; MError; MError; MError; MError; MDisconnected]
           (new_manager true) init m s eq_refl E).
Defined.
